(** * Stock Recommendation API: authentication hand-off and daily quota

    A shallow embedding of [app.py]: the Supabase [users] table, the quota
    manager ([check_daily_limit], [increment_query_count],
    [reset_daily_queries]), the user directory ([get_or_create_user]), the
    session credential functions ([create_jwt_token], [verify_jwt_token]) and
    the request handlers ([google_auth], [get_user_profile],
    [chat_with_agent]).

    Python's ambient state is made explicit: a handler is a function from a
    [World] (table rows, wall clock, outcome of the coming external calls, the
    things logged so far) to a result and a new [World].  Exceptions are a
    result constructor; [try ... except] is [try_except]. *)

From Stdlib Require Import ZArith List String Bool Lia.
Import ListNotations.
Open Scope string_scope.
Open Scope Z_scope.

(** ** Data model *)

(** One row of the [users] table.  [last_query_date] holds the instant
    written by [datetime.utcnow().isoformat()], as seconds since the epoch
    (UTC); [None] is SQL [NULL]. *)
Record User := mkUser {
  user_id : string;
  email : string;
  name : string;
  queries_used_today : Z;
  last_query_date : option Z;
  created_at : Z
}.

(** Python exceptions that the handlers tell apart: FastAPI's
    [HTTPException], and every other [Exception] (named by its class). *)
Inductive Exc :=
| HTTPException (status_code : Z) (detail : string)
| Exception (cls : string).

Definition HTTP_401_UNAUTHORIZED : Z := 401.
Definition HTTP_429_TOO_MANY_REQUESTS : Z := 429.
Definition HTTP_500_INTERNAL_SERVER_ERROR : Z := 500.

(** What a request leaves behind besides table rows: [logger] calls and the
    invocation of the downstream agent. *)
Inductive Event :=
| LogError (prefix : string) (e : Exc)
| LogInfo (msg : string)
| AgentRun (message : string).

(** [users]: the rows of the table, in storage order.
    [clock]: the value of [datetime.utcnow()], seconds since the epoch.
    [faults]: the outcome of the coming external calls (a Supabase
    [.execute()], [run_agent]), one flag per call, [true] when the call
    raises; past the end of the list every call succeeds.
    [trace]: events so far, oldest first. *)
Record World := mkWorld {
  users : list User;
  clock : Z;
  faults : list bool;
  trace : list Event
}.

Definition set_users (us : list User) (w : World) : World :=
  mkWorld us (clock w) (faults w) (trace w).
Definition set_clock (t : Z) (w : World) : World :=
  mkWorld (users w) t (faults w) (trace w).
Definition set_faults (fs : list bool) (w : World) : World :=
  mkWorld (users w) (clock w) fs (trace w).
Definition emit (ev : Event) (w : World) : World :=
  mkWorld (users w) (clock w) (faults w) (trace w ++ [ev]).

(** ** Computations that may raise *)

Inductive Result (A : Type) :=
| Ok (a : A)
| Raise (e : Exc).
Arguments Ok {A} a.
Arguments Raise {A} e.

Definition M (A : Type) : Type := World -> Result A * World.

Definition ret {A} (a : A) : M A := fun w => (Ok a, w).
Definition raise {A} (e : Exc) : M A := fun w => (Raise e, w).
Definition bind {A B} (m : M A) (f : A -> M B) : M B :=
  fun w => match m w with
           | (Ok a, w') => f a w'
           | (Raise e, w') => (Raise e, w')
           end.
Definition try_except {A} (m : M A) (handler : Exc -> M A) : M A :=
  fun w => match m w with
           | (Ok a, w') => (Ok a, w')
           | (Raise e, w') => handler e w'
           end.

Notation "x <- m ;; k" := (bind m (fun x => k))
  (at level 61, m at next level, right associativity).
Notation "m ;;; k" := (bind m (fun _ => k))
  (at level 61, right associativity).

Definition logger_error (prefix : string) (e : Exc) : M unit :=
  fun w => (Ok tt, emit (LogError prefix e) w).
Definition logger_info (msg : string) : M unit :=
  fun w => (Ok tt, emit (LogInfo msg) w).

(** [datetime.utcnow()] and [.date()]: the day number of an instant. *)
Definition utcnow : M Z := fun w => (Ok (clock w), w).
Definition date (t : Z) : Z := t / 86400.

(** An external call: consumes the next outcome flag and raises when it is
    set. *)
Definition external (cls : string) : M unit :=
  fun w => match faults w with
           | true :: fs => (Raise (Exception cls), set_faults fs w)
           | false :: fs => (Ok tt, set_faults fs w)
           | [] => (Ok tt, w)
           end.

(** ** The Supabase [users] table *)

Definition matches (uid : string) (u : User) : bool := String.eqb (user_id u) uid.

(** [supabase.table('users').select('*').eq('user_id', uid).execute()]:
    [response.data], the matching rows. *)
Definition select_eq (uid : string) : M (list User) :=
  external "APIError" ;;;
  fun w => (Ok (filter (matches uid) (users w)), w).

Definition set_usage (q : Z) (d : option Z) (u : User) : User :=
  mkUser (user_id u) (email u) (name u) q d (created_at u).

Definition update_rows (uid : string) (q : Z) (d : option Z) (us : list User) : list User :=
  map (fun u => if matches uid u then set_usage q d u else u) us.

(** [supabase.table('users').update({'queries_used_today': q,
    'last_query_date': d}).eq('user_id', uid).execute()]. *)
Definition update_eq (uid : string) (q : Z) (d : option Z) : M unit :=
  external "APIError" ;;;
  fun w => (Ok tt, set_users (update_rows uid q d (users w)) w).

(** [supabase.table('users').insert(new_user).execute()]: [response.data],
    the inserted rows. *)
Definition insert (new_user : User) : M (list User) :=
  external "APIError" ;;;
  fun w => (Ok [new_user], set_users (users w ++ [new_user]) w).

(** [response.data[0]]. *)
Definition data0 (data : list User) : M User :=
  match data with
  | u :: _ => ret u
  | [] => raise (Exception "IndexError")
  end.

(** ** Quota manager *)

Definition DAILY_LIMIT : Z := 3.

Definition reset_daily_queries (uid : string) : M unit :=
  try_except
    (now <- utcnow ;;
     update_eq uid 0 (Some now))
    (fun e => logger_error "Error resetting daily queries" e).

Definition check_daily_limit (uid : string) : M Z :=
  try_except
    (data <- select_eq uid ;;
     user <- data0 data ;;
     now <- utcnow ;;
     let today := date now in
     if match last_query_date user with
        | None => true
        | Some d => negb (date d =? today)
        end
     then reset_daily_queries uid ;;; ret 3
     else
       let queries_used := queries_used_today user in
       if queries_used >=? 3
       then raise (HTTPException HTTP_429_TOO_MANY_REQUESTS
                     "Daily query limit reached. You can make 3 queries per day.")
       else ret (3 - queries_used))
    (fun e => match e with
              | HTTPException _ _ => raise e
              | Exception _ =>
                  logger_error "Error checking daily limit" e ;;;
                  raise (HTTPException HTTP_500_INTERNAL_SERVER_ERROR
                           "Error checking query limit")
              end).

Definition increment_query_count (uid : string) : M unit :=
  try_except
    (data <- select_eq uid ;;
     user <- data0 data ;;
     let current_count := queries_used_today user in
     let new_count := current_count + 1 in
     now <- utcnow ;;
     update_eq uid new_count (Some now))
    (fun e => logger_error "Error incrementing query count" e).

(** ** User directory *)

(** The [user_info] dictionary returned by [verify_google_token]. *)
Record UserInfo := mkUserInfo {
  ui_user_id : string;
  ui_email : string;
  ui_name : string;
  ui_picture : string
}.

Definition get_or_create_user (user_info : UserInfo) : M User :=
  try_except
    (data <- select_eq (ui_user_id user_info) ;;
     match data with
     | user :: _ => ret user
     | [] =>
         now <- utcnow ;;
         let new_user := mkUser (ui_user_id user_info) (ui_email user_info)
                           (ui_name user_info) 0 None now in
         data <- insert new_user ;;
         data0 data
     end)
    (fun e => logger_error "Error in get_or_create_user" e ;;;
              raise (HTTPException HTTP_500_INTERNAL_SERVER_ERROR "Database error")).

(** ** Session credentials *)

(** The claims of a session credential: the [payload] dictionary of
    [create_jwt_token]; [exp] in whole seconds since the epoch, as
    [jwt.encode] serialises a [datetime]. *)
Record Payload := mkPayload {
  sub : string;
  pl_email : string;
  exp : Z
}.

(** A bearer credential as [jwt.decode] sees it: three well-formed segments
    with an HS256 header, or anything else. *)
Inductive Credential :=
| Compact (claims : Payload) (signature : string)
| Garbage (raw : string).

Section Auth.

(** Process-wide configuration read from the environment. *)
Variable JWT_SECRET : string.
Variable GOOGLE_CLIENT_ID : string.

(** HMAC-SHA256 of the signing input under a key. *)
Variable HS256 : string -> Payload -> string.

(** Modelled from the spec: [jwt.encode] of the [jwt] package, which is not
    part of the repository; the credential is the claims "signed with a
    process-wide secret key". *)
Definition jwt_encode (payload : Payload) (key : string) : Credential :=
  Compact payload (HS256 key payload).

(** Modelled from the spec: [jwt.decode] of the [jwt] package, which is not
    part of the repository; it "validates signature against the same secret
    key and checks [now < expires_at]", raising [ExpiredSignatureError] "if
    expiry has passed" and another [JWTError] "for any signature/format
    failure". *)
Definition jwt_decode (token : Credential) (key : string) : M Payload :=
  match token with
  | Garbage _ => raise (Exception "DecodeError")
  | Compact claims signature =>
      if negb (String.eqb signature (HS256 key claims))
      then raise (Exception "InvalidSignatureError")
      else
        now <- utcnow ;;
        if now <? exp claims
        then ret claims
        else raise (Exception "ExpiredSignatureError")
  end.

Definition timedelta_days (n : Z) : Z := n * 86400.

Definition create_jwt_token (uid : string) (mail : string) : M Credential :=
  now <- utcnow ;;
  let payload := mkPayload uid mail (now + timedelta_days 1) in
  ret (jwt_encode payload JWT_SECRET).

Definition verify_jwt_token (credentials : Credential) : M Payload :=
  try_except
    (payload <- jwt_decode credentials JWT_SECRET ;;
     ret payload)
    (fun e => match e with
              | Exception "ExpiredSignatureError" =>
                  raise (HTTPException HTTP_401_UNAUTHORIZED "Token has expired")
              | _ =>
                  raise (HTTPException HTTP_401_UNAUTHORIZED "Invalid token")
              end).

(** ** Identity verifier *)

(** The dictionary of claims of a Google ID token; a key may be missing. *)
Record IdInfo := mkIdInfo {
  iss : option string;
  id_sub : option string;
  id_email : option string;
  id_name : option string;
  id_picture : option string
}.

(** [id_token.verify_oauth2_token(token, requests.Request(), audience)] of
    the [google-auth] package, at a given instant: the claims, or the
    exception it raises (bad signature, wrong audience, expired, transport
    failure). *)
Variable verify_oauth2_token : string -> string -> Z -> Result IdInfo.

(** [d[key]]: [KeyError] when the key is missing. *)
Definition getitem (v : option string) : M string :=
  match v with
  | Some s => ret s
  | None => raise (Exception "KeyError")
  end.

(** [d.get(key, '')]. *)
Definition get_default (v : option string) : string :=
  match v with
  | Some s => s
  | None => ""
  end.

Definition trusted_issuer (i : string) : bool :=
  String.eqb i "accounts.google.com" || String.eqb i "https://accounts.google.com".

Definition verify_google_token (id_token_str : string) : M UserInfo :=
  try_except
    (now <- utcnow ;;
     idinfo <- (fun w => (verify_oauth2_token id_token_str GOOGLE_CLIENT_ID now, w)) ;;
     i <- getitem (iss idinfo) ;;
     if negb (trusted_issuer i)
     then raise (Exception "ValueError")
     else
       s <- getitem (id_sub idinfo) ;;
       m <- getitem (id_email idinfo) ;;
       ret (mkUserInfo s m (get_default (id_name idinfo))
              (get_default (id_picture idinfo))))
    (fun e => logger_error "Google token verification failed" e ;;;
              raise (HTTPException HTTP_401_UNAUTHORIZED "Invalid Google token")).

(** ** Request handlers *)

Record AuthResponse := mkAuthResponse {
  access_token : Credential;
  token_type : string;
  ar_user_id : string;
  ar_email : string;
  ar_name : string;
  ar_queries_remaining : Z
}.

(** [POST /auth/google]; the argument is [request.id_token]. *)
Definition google_auth (id_token_str : string) : M AuthResponse :=
  try_except
    (user_info <- verify_google_token id_token_str ;;
     user <- get_or_create_user user_info ;;
     token <- create_jwt_token (ui_user_id user_info) (ui_email user_info) ;;
     queries_remaining <- check_daily_limit (ui_user_id user_info) ;;
     ret (mkAuthResponse token "bearer" (ui_user_id user_info)
            (ui_email user_info) (ui_name user_info) queries_remaining))
    (fun e => match e with
              | HTTPException _ _ => raise e
              | Exception _ =>
                  logger_error "Google auth error" e ;;;
                  raise (HTTPException HTTP_500_INTERNAL_SERVER_ERROR
                           "Authentication failed")
              end).

End Auth.

Record UserProfile := mkUserProfile {
  up_user_id : string;
  up_email : string;
  up_name : string;
  up_queries_used_today : Z;
  up_queries_remaining : Z;
  up_last_query_date : option Z
}.

(** [GET /auth/profile]; [current_user] is the payload returned by the
    [verify_jwt_token] dependency. *)
Definition get_user_profile (current_user : Payload) : M UserProfile :=
  try_except
    (data <- select_eq (sub current_user) ;;
     user <- data0 data ;;
     queries_remaining <- check_daily_limit (sub current_user) ;;
     ret (mkUserProfile (user_id user) (email user) (name user)
            (queries_used_today user) queries_remaining (last_query_date user)))
    (fun e => logger_error "Error getting user profile" e ;;;
              raise (HTTPException HTTP_500_INTERNAL_SERVER_ERROR
                       "Error retrieving user profile")).

(** Modelled from the spec: [main.run_agent] is not under [src/]; it is the
    "downstream capability (external collaborator)".  An invocation either
    completes, which the trace records, or raises. *)
Definition run_agent (message : string) : M unit :=
  external "AgentError" ;;;
  fun w => (Ok tt, emit (AgentRun message) w).

Record ChatResponse := mkChatResponse {
  response : string;
  timestamp : Z;
  cr_user_id : string;
  message_id : Z;
  cr_queries_remaining : Z
}.

(** [POST /chat]; [message] is [request.message], [current_user] the payload
    returned by the [verify_jwt_token] dependency.  [message_id] keeps the
    integer of ["msg_<int(time.time())>"]. *)
Definition chat_with_agent (message : string) (current_user : Payload) : M ChatResponse :=
  try_except
    (let uid := sub current_user in
     queries_remaining <- check_daily_limit uid ;;
     logger_info ("User " ++ uid ++ " sent message: " ++ substring 0 50 message ++ "...") ;;;
     increment_query_count uid ;;;
     run_agent message ;;;
     let response_text :=
       "Stock recommendation analysis completed. Check the logs for detailed output." in
     now <- utcnow ;;
     ret (mkChatResponse response_text now uid now (queries_remaining - 1)))
    (fun e => match e with
              | HTTPException _ _ => raise e
              | Exception _ =>
                  logger_error "Error processing chat request" e ;;;
                  raise (HTTPException HTTP_500_INTERNAL_SERVER_ERROR
                           "An error occurred while processing your request")
              end).

(** The instant at which a request is served. *)
Definition at_time {A} (t : Z) (m : M A) : M A := fun w => m (set_clock t w).

(** ** States of the quota manager *)

(** [FRESH_DAY]: no usage recorded yet, or recorded on another UTC day. *)
Definition fresh_day (u : User) (now : Z) : bool :=
  match last_query_date u with
  | None => true
  | Some d => negb (date d =? date now)
  end.

(** The allowance a check reports for a stored row at a given instant, when
    it grants. *)
Definition allowance (u : User) (now : Z) : Z :=
  if fresh_day u now then 3 else 3 - queries_used_today u.

(** The row that [response.data[0]] reads for a user. *)
Definition stored (uid : string) (w : World) : option User :=
  hd_error (filter (matches uid) (users w)).

(** Every coming external call succeeds. *)
Definition healthy (w : World) : Prop := faults w = [].

(** ** Sequential use of the quota manager *)

(** The two ways the handlers use the quota manager: a check alone
    ([google_auth], [get_user_profile]) and a check followed, when it grants,
    by one increment ([chat_with_agent]).  Each step carries the instant at
    which it runs. *)
Inductive QuotaOp :=
| Peek (t : Z) (uid : string)
| Spend (t_check t_increment : Z) (uid : string).

Definition run_op (op : QuotaOp) (w : World) : World :=
  match op with
  | Peek t uid => snd (at_time t (check_daily_limit uid) w)
  | Spend t1 t2 uid =>
      match at_time t1 (check_daily_limit uid) w with
      | (Ok _, w') => snd (at_time t2 (increment_query_count uid) w')
      | (Raise _, w') => w'
      end
  end.

Definition run_ops (ops : list QuotaOp) (w : World) : World :=
  fold_left (fun w op => run_op op w) ops w.

Definition in_quota (u : User) : Prop :=
  0 <= queries_used_today u <= DAILY_LIMIT.

(** ** Sequential [/chat] requests *)

(** Requests served one after the other, each at its instant. *)
Fixpoint serve (requests : list (Z * string)) (current_user : Payload) (w : World)
  : list (Result ChatResponse) * World :=
  match requests with
  | [] => ([], w)
  | (t, message) :: rest =>
      let (r, w') := at_time t (chat_with_agent message current_user) w in
      let (rs, w'') := serve rest current_user w' in
      (r :: rs, w'')
  end.

(** What the client sees of a [/chat] answer: [queries_remaining], or the
    status code. *)
Inductive Outcome :=
| Granted (queries_remaining : Z)
| Denied (status_code : Z)
| Crashed.

Definition outcome (r : Result ChatResponse) : Outcome :=
  match r with
  | Ok resp => Granted (cr_queries_remaining resp)
  | Raise (HTTPException c _) => Denied c
  | Raise (Exception _) => Crashed
  end.

(** ** Identity assertions that fail verification *)

(** The assertion is refused by the library (bad signature, expired, wrong
    audience) or carries an issuer outside the allow-list. *)
Definition fails_verification
    (verify_oauth2_token : string -> string -> Z -> Result IdInfo)
    (client_id id_token_str : string) (now : Z) : Prop :=
  (exists e, verify_oauth2_token id_token_str client_id now = Raise e)
  \/ (exists idinfo i,
        verify_oauth2_token id_token_str client_id now = Ok idinfo
        /\ iss idinfo = Some i /\ trusted_issuer i = false).

(** ** Order of the increment and the downstream action *)

(** In every successful [/chat] request that logged a failed increment, the
    agent had run before that failure. *)
Definition agent_ran_before_increment_failure : Prop :=
  forall message current_user w resp w' pre e post,
    chat_with_agent message current_user w = (Ok resp, w') ->
    trace w' = (pre ++ LogError "Error incrementing query count" e :: post)%list ->
    In (AgentRun message) pre.

(** ** Worlds the service can be in *)

(** Worlds reached from an empty table by serving requests one after the
    other. *)
Inductive reachable : World -> Prop :=
| reach_init t : reachable (mkWorld [] t [] [])
| reach_auth secret client hs verifier t id_token_str w :
    reachable w ->
    reachable (snd (at_time t (google_auth secret client hs verifier id_token_str) w))
| reach_profile t current_user w :
    reachable w ->
    reachable (snd (at_time t (get_user_profile current_user) w))
| reach_chat t message current_user w :
    reachable w ->
    reachable (snd (at_time t (chat_with_agent message current_user) w)).

(** ** Sample data *)

Module Sample.

(** 2023-11-14 22:13:20 UTC, day 19675; the next day starts at
    1700006400. *)
Definition noon : Z := 1700000000.
Definition next_day : Z := noon + 86400.

Definition alice (used : Z) (last : option Z) : User :=
  mkUser "g-1" "alice@example.com" "Alice" used last 1690000000.
Definition bob : User :=
  mkUser "g-2" "bob@example.com" "Bob" 1 (Some noon) 1690000500.

Definition world (used : Z) (last : option Z) (now : Z) (fs : list bool) : World :=
  mkWorld [bob; alice used last] now fs [].

Definition session : Payload := mkPayload "g-1" "alice@example.com" (noon + 86400).

(** A keyed tag standing in for HMAC-SHA256. *)
Definition tag (key : string) (p : Payload) : string :=
  key ++ "/" ++ sub p ++ "/" ++ pl_email p.

(** A verifier standing in for Google's: one good assertion, one from a
    foreign issuer, everything else refused. *)
Definition verifier (id_token_str audience : string) (now : Z) : Result IdInfo :=
  if String.eqb id_token_str "good"
  then Ok (mkIdInfo (Some "accounts.google.com") (Some "g-1")
             (Some "alice@example.com") (Some "Alice") None)
  else if String.eqb id_token_str "foreign"
  then Ok (mkIdInfo (Some "login.example.org") (Some "g-9")
             (Some "mallory@example.org") None None)
  else Raise (Exception "ValueError").

(** Alice signs in at [noon] and sends three [/chat] requests that day. *)
Definition spent : World :=
  snd (serve [(noon + 60, "buy?"); (noon + 120, "sell?"); (noon + 180, "hold?")]
         session
         (snd (at_time noon (google_auth "secret" "client" tag verifier "good")
                 (mkWorld [] noon [] [])))).

End Sample.

(** ** What quota operations may touch *)

(** The fields of a row that identify the user; the quota manager has no
    business with them. *)
Definition identity (u : User) : string * string * string * Z :=
  (user_id u, email u, name u, created_at u).

(** Row by row, the table [us'] is the table [us] except for the usage
    fields of rows of [uid]. *)
Definition usage_edit (uid : string) (us us' : list User) : Prop :=
  Forall2 (fun a b => b = a \/ (user_id a = uid /\ identity b = identity a)) us us'.

(** Relations between the world before and after a computation:
    [frame_rel]: only usage fields of rows of [uid] were edited;
    [quiet_rel]: the agent was not invoked;
    [tidy_rel]: the clock was not moved and no fault was introduced. *)
Definition frame_rel (uid : string) (w w' : World) : Prop :=
  usage_edit uid (users w) (users w').

Definition agent_runs (tr : list Event) : nat :=
  List.length (filter (fun ev => match ev with AgentRun _ => true | _ => false end) tr).

Definition quiet_rel (w w' : World) : Prop :=
  agent_runs (trace w') = agent_runs (trace w).

Definition tidy_rel (w w' : World) : Prop :=
  clock w' = clock w /\ (healthy w -> healthy w').

(** A computation whose final world is always related to its initial one. *)
Definition keeps {A} (R : World -> World -> Prop) (m : M A) : Prop :=
  forall w, R w (snd (m w)).

(** What a quota operation on [uid] may do to the table: same number of
    rows, same identity fields, and the rows of every other user as they
    were. *)
Definition confined (uid : string) (w w' : World) : Prop :=
  List.length (users w') = List.length (users w)
  /\ map identity (users w') = map identity (users w)
  /\ forall uid', uid' <> uid ->
       filter (matches uid') (users w') = filter (matches uid') (users w).

(** ** Identity assertions that pass verification *)

(** The verifier library accepts the assertion, its issuer is in the
    allow-list, and its claims give the user info [ui]. *)
Definition asserts
    (verify_oauth2_token : string -> string -> Z -> Result IdInfo)
    (client_id id_token_str : string) (now : Z) (ui : UserInfo) : Prop :=
  exists idinfo i,
    verify_oauth2_token id_token_str client_id now = Ok idinfo
    /\ iss idinfo = Some i /\ trusted_issuer i = true
    /\ id_sub idinfo = Some (ui_user_id ui)
    /\ id_email idinfo = Some (ui_email ui)
    /\ ui_name ui = get_default (id_name idinfo)
    /\ ui_picture ui = get_default (id_picture idinfo).

(** What holds of the table in every world the service reaches. *)
Definition well_formed (w : World) : Prop :=
  healthy w
  /\ Forall in_quota (users w)
  /\ NoDup (map user_id (users w)).

(** The number of granted requests among the answers to a run of [/chat]
    requests. *)
Definition grants (answers : list (Result ChatResponse)) : Z :=
  Z.of_nat (List.length (filter (fun r => match outcome r with
                                          | Granted _ => true
                                          | _ => false
                                          end) answers)).

(** ** Rollover resets that are not persisted *)

(** The check of [uid] in [w] attempts a rollover reset whose write raises:
    the load succeeds, the row is due for a reset, and the next external
    call is flagged to fail. *)
Definition reset_fails (uid : string) (w : World) : bool :=
  match faults w with
  | false :: true :: _ =>
      match stored uid w with
      | Some u => fresh_day u (clock w)
      | None => false
      end
  | _ => false
  end.

Definition op_uid (op : QuotaOp) : string :=
  match op with
  | Peek _ uid => uid
  | Spend _ _ uid => uid
  end.

Definition op_check_time (op : QuotaOp) : Z :=
  match op with
  | Peek t _ => t
  | Spend t _ _ => t
  end.

(** Along the run of [ops] from [w], every rollover reset that a check
    attempts is persisted; any other external call may fail. *)
Fixpoint resets_persist (ops : list QuotaOp) (w : World) : Prop :=
  match ops with
  | [] => True
  | op :: rest =>
      reset_fails (op_uid op) (set_clock (op_check_time op) w) = false
      /\ resets_persist rest (run_op op w)
  end.

(** The invariant with nothing assumed about the external calls. *)
Definition quota_invariant_unconditional : Prop :=
  forall ops w,
    Forall in_quota (users w) -> Forall in_quota (users (run_ops ops w)).

(** ** Callers of get-or-create that interleave *)

(** [get_or_create_user] cut at its two directory calls: the lookup, and
    what follows it. *)
Definition goc_handler (e : Exc) : M User :=
  logger_error "Error in get_or_create_user" e ;;;
  raise (HTTPException HTTP_500_INTERNAL_SERVER_ERROR "Database error").

Definition goc_lookup (user_info : UserInfo) : M (list User) :=
  select_eq (ui_user_id user_info).

Definition goc_complete (user_info : UserInfo) (data : list User) : M User :=
  match data with
  | user :: _ => ret user
  | [] =>
      now <- utcnow ;;
      let new_user := mkUser (ui_user_id user_info) (ui_email user_info)
                        (ui_name user_info) 0 None now in
      data <- insert new_user ;;
      data0 data
  end.

(** A caller of [get_or_create_user]: before its lookup, between its lookup
    and the rest (holding the rows the lookup returned), or done. *)
Inductive Caller :=
| Arrived (user_info : UserInfo)
| Looked (user_info : UserInfo) (data : list User)
| Answered (r : Result User).

(** One directory call's worth of progress of a caller. *)
Definition advance (c : Caller) (w : World) : Caller * World :=
  match c with
  | Arrived user_info =>
      match goc_lookup user_info w with
      | (Ok data, w') => (Looked user_info data, w')
      | (Raise e, w') => let (r, w'') := goc_handler e w' in (Answered r, w'')
      end
  | Looked user_info data =>
      let (r, w') := try_except (goc_complete user_info data) goc_handler w in
      (Answered r, w')
  | Answered r => (c, w)
  end.

Fixpoint set_nth {A} (i : nat) (x : A) (l : list A) : list A :=
  match l, i with
  | [], _ => []
  | _ :: l', O => x :: l'
  | a :: l', S j => a :: set_nth j x l'
  end.

(** The [i]-th caller advances; the others wait. *)
Definition advance_nth (i : nat) (st : list Caller * World) : list Caller * World :=
  match nth_error (fst st) i with
  | Some c => let (c', w') := advance c (snd st) in (set_nth i c' (fst st), w')
  | None => st
  end.

(** A schedule names, step by step, the caller that advances. *)
Definition run_schedule (schedule : list nat) (st : list Caller * World)
  : list Caller * World :=
  fold_left (fun st i => advance_nth i st) schedule st.



(** * Properties *)

(** ** External calls on a healthy world *)

Lemma external_healthy cls w :
  healthy w -> external cls w = (Ok tt, w).
Proof. unfold healthy, external. intros ->. reflexivity. Qed.

Lemma select_eq_healthy uid w :
  healthy w -> select_eq uid w = (Ok (filter (matches uid) (users w)), w).
Proof.
  intros H. unfold select_eq, bind. rewrite (external_healthy _ _ H). reflexivity.
Qed.

Lemma update_eq_healthy uid q d w :
  healthy w ->
  update_eq uid q d w = (Ok tt, set_users (update_rows uid q d (users w)) w).
Proof.
  intros H. unfold update_eq, bind. rewrite (external_healthy _ _ H). reflexivity.
Qed.

Lemma stored_data uid w u :
  stored uid w = Some u ->
  exists rest, filter (matches uid) (users w) = u :: rest.
Proof.
  unfold stored. destruct (filter (matches uid) (users w)) as [|x rest]; simpl.
  - discriminate.
  - intros [= ->]. now exists rest.
Qed.

Lemma healthy_emit ev w : healthy w -> healthy (emit ev w).
Proof. exact (fun H => H). Qed.

(** ** The table after an update *)

Lemma matches_set_usage uid q d u : matches uid (set_usage q d u) = matches uid u.
Proof. reflexivity. Qed.

Lemma filter_update_rows uid q d us :
  filter (matches uid) (update_rows uid q d us)
  = map (set_usage q d) (filter (matches uid) us).
Proof.
  induction us as [|u us IH]; simpl; [reflexivity|].
  destruct (matches uid u) eqn:E; simpl.
  - rewrite matches_set_usage, E. simpl. now rewrite IH.
  - rewrite E. exact IH.
Qed.

Lemma stored_update uid q d us w :
  stored uid (set_users (update_rows uid q d us) w)
  = option_map (set_usage q d) (hd_error (filter (matches uid) us)).
Proof.
  unfold stored. simpl. rewrite filter_update_rows.
  now destruct (filter (matches uid) us).
Qed.

(** ** What a quota check does, case by case *)

Lemma reset_healthy uid w :
  healthy w ->
  reset_daily_queries uid w
  = (Ok tt, set_users (update_rows uid 0 (Some (clock w)) (users w)) w).
Proof.
  intros H. unfold reset_daily_queries, try_except, bind, utcnow.
  now rewrite (update_eq_healthy _ _ _ _ H).
Qed.

Lemma check_fresh uid w u :
  healthy w -> stored uid w = Some u -> fresh_day u (clock w) = true ->
  check_daily_limit uid w
  = (Ok 3, set_users (update_rows uid 0 (Some (clock w)) (users w)) w).
Proof.
  intros H S F. destruct (stored_data _ _ _ S) as [rest E].
  unfold check_daily_limit, try_except, bind.
  rewrite (select_eq_healthy _ _ H), E. simpl.
  unfold fresh_day in F. rewrite F.
  now rewrite (reset_healthy _ _ H).
Qed.

Lemma check_same_day uid w u :
  healthy w -> stored uid w = Some u -> fresh_day u (clock w) = false ->
  check_daily_limit uid w
  = (if queries_used_today u >=? 3
     then Raise (HTTPException HTTP_429_TOO_MANY_REQUESTS
                   "Daily query limit reached. You can make 3 queries per day.")
     else Ok (3 - queries_used_today u), w).
Proof.
  intros H S F. destruct (stored_data _ _ _ S) as [rest E].
  unfold check_daily_limit, try_except, bind.
  rewrite (select_eq_healthy _ _ H), E. simpl.
  unfold fresh_day in F. rewrite F.
  now destruct (queries_used_today u >=? 3).
Qed.

Lemma check_missing uid w :
  healthy w -> stored uid w = None ->
  check_daily_limit uid w
  = (Raise (HTTPException HTTP_500_INTERNAL_SERVER_ERROR "Error checking query limit"),
     emit (LogError "Error checking daily limit" (Exception "IndexError")) w).
Proof.
  intros H S. unfold stored in S.
  unfold check_daily_limit, try_except, bind.
  rewrite (select_eq_healthy _ _ H).
  destruct (filter (matches uid) (users w)); [reflexivity|discriminate].
Qed.

Lemma increment_healthy uid w u :
  healthy w -> stored uid w = Some u ->
  increment_query_count uid w
  = (Ok tt, set_users (update_rows uid (queries_used_today u + 1)
                         (Some (clock w)) (users w)) w).
Proof.
  intros H S. destruct (stored_data _ _ _ S) as [rest E].
  unfold increment_query_count, try_except, bind.
  rewrite (select_eq_healthy _ _ H), E. simpl.
  unfold utcnow. now rewrite (update_eq_healthy _ _ _ _ H).
Qed.

Lemma increment_missing uid w :
  healthy w -> stored uid w = None ->
  increment_query_count uid w
  = (Ok tt, emit (LogError "Error incrementing query count" (Exception "IndexError")) w).
Proof.
  intros H S. unfold stored in S.
  unfold increment_query_count, try_except, bind.
  rewrite (select_eq_healthy _ _ H).
  destruct (filter (matches uid) (users w)); [reflexivity|discriminate].
Qed.

(** ** Same-day check *)

(** C1.  For a stored user whose [last_query_date] falls on today's UTC
    date, on a healthy directory: [check_daily_limit] raises the 429
    [HTTPException] exactly when [queries_used_today >= DAILY_LIMIT],
    otherwise it returns [DAILY_LIMIT - queries_used_today]; either way the
    world, and so the stored record, is left as it was. *)
Theorem check_daily_limit_same_day_peek uid w u d :
  healthy w ->
  stored uid w = Some u ->
  last_query_date u = Some d ->
  date d = date (clock w) ->
  ((exists detail,
       fst (check_daily_limit uid w)
       = Raise (HTTPException HTTP_429_TOO_MANY_REQUESTS detail))
   <-> queries_used_today u >= DAILY_LIMIT)
  /\ (queries_used_today u < DAILY_LIMIT ->
      fst (check_daily_limit uid w) = Ok (DAILY_LIMIT - queries_used_today u))
  /\ snd (check_daily_limit uid w) = w
  /\ stored uid (snd (check_daily_limit uid w)) = Some u.
Proof.
  intros H S L D.
  assert (F : fresh_day u (clock w) = false).
  { unfold fresh_day. rewrite L, D, Z.eqb_refl. reflexivity. }
  rewrite (check_same_day _ _ _ H S F). unfold DAILY_LIMIT. simpl.
  destruct (Z.geb_spec (queries_used_today u) 3) as [G|G]; simpl.
  - repeat split; try assumption; try lia. now eexists.
  - repeat split; try assumption; try lia.
    intros [detail [=]].
Qed.

Lemma check_daily_limit_same_day_peek_witness :
  fst (check_daily_limit "g-1" (Sample.world 2 (Some Sample.noon) (Sample.noon + 60) []))
  = Ok 1
  /\ fst (check_daily_limit "g-1" (Sample.world 3 (Some Sample.noon) (Sample.noon + 60) []))
     = Raise (HTTPException 429 "Daily query limit reached. You can make 3 queries per day.").
Proof.
  split.
  - apply (check_daily_limit_same_day_peek "g-1"
             (Sample.world 2 (Some Sample.noon) (Sample.noon + 60) [])
             (Sample.alice 2 (Some Sample.noon)) Sample.noon);
      [reflexivity | reflexivity | reflexivity | reflexivity | reflexivity].
  - reflexivity.
Defined.

(** ** Day rollover *)

(** C2.  For a stored user whose [last_query_date] is absent or on another
    UTC date than today, on a healthy directory: [check_daily_limit] returns
    [DAILY_LIMIT] and leaves every row of that user with
    [queries_used_today = 0] and a [last_query_date] on today's date,
    whatever the stored counter was; the rows of other users are untouched. *)
Theorem check_daily_limit_fresh_day_reset uid w u :
  healthy w ->
  stored uid w = Some u ->
  (last_query_date u = None
   \/ exists d, last_query_date u = Some d /\ date d <> date (clock w)) ->
  fst (check_daily_limit uid w) = Ok DAILY_LIMIT
  /\ stored uid (snd (check_daily_limit uid w))
     = Some (set_usage 0 (Some (clock w)) u)
  /\ (forall u', In u' (users (snd (check_daily_limit uid w))) ->
        user_id u' = uid ->
        queries_used_today u' = 0
        /\ exists d', last_query_date u' = Some d' /\ date d' = date (clock w))
  /\ (forall u', user_id u' <> uid ->
        In u' (users (snd (check_daily_limit uid w))) <-> In u' (users w)).
Proof.
  intros H S L.
  assert (F : fresh_day u (clock w) = true).
  { unfold fresh_day. destruct L as [-> | [d [-> N]]]; [reflexivity|].
    apply negb_true_iff, Z.eqb_neq, N. }
  rewrite (check_fresh _ _ _ H S F). simpl.
  assert (U : forall u', In u' (update_rows uid 0 (Some (clock w)) (users w)) ->
                exists x, In x (users w)
                          /\ u' = if matches uid x
                                  then set_usage 0 (Some (clock w)) x else x).
  { intros u' I. apply in_map_iff in I as [x [E I]]. now exists x. }
  split; [reflexivity|]. split; [|split].
  - rewrite stored_update. unfold stored in S. now rewrite S.
  - intros u' I Eu. destruct (U u' I) as [x [_ ->]].
    destruct (matches uid x) eqn:Mx.
    + split; [reflexivity|]. now eexists.
    + unfold matches in Mx. apply String.eqb_neq in Mx. contradiction.
  - intros u' N. split.
    + intros I. destruct (U u' I) as [x [Ix ->]].
      destruct (matches uid x) eqn:Mx; [|exact Ix].
      unfold matches in Mx. apply String.eqb_eq in Mx. now contradiction N.
    + intros I. apply in_map_iff. exists u'. split; [|exact I].
      unfold matches. apply String.eqb_neq in N. now rewrite N.
Qed.

Lemma check_daily_limit_fresh_day_reset_witness :
  fst (check_daily_limit "g-1" (Sample.world 3 (Some Sample.noon) Sample.next_day []))
  = Ok 3
  /\ stored "g-1"
       (snd (check_daily_limit "g-1" (Sample.world 3 (Some Sample.noon) Sample.next_day [])))
     = Some (Sample.alice 0 (Some Sample.next_day)).
Proof.
  destruct (check_daily_limit_fresh_day_reset "g-1"
              (Sample.world 3 (Some Sample.noon) Sample.next_day [])
              (Sample.alice 3 (Some Sample.noon)))
    as [R [S _]].
  - reflexivity.
  - reflexivity.
  - right. exists Sample.noon. split; [reflexivity|]. vm_compute. discriminate.
  - split; [exact R | exact S].
Defined.

(** ** The counter stays within the limit *)

Lemma stored_In uid w u : stored uid w = Some u -> In u (users w).
Proof.
  intros S. destruct (stored_data _ _ _ S) as [rest E].
  assert (I : In u (filter (matches uid) (users w))) by (rewrite E; now left).
  now apply filter_In in I.
Qed.

Lemma update_rows_in_quota uid q d us :
  0 <= q <= DAILY_LIMIT ->
  Forall in_quota us -> Forall in_quota (update_rows uid q d us).
Proof.
  intros Q. unfold update_rows. induction 1 as [|u us U _ IH]; simpl; constructor.
  - destruct (matches uid u); [exact Q | exact U].
  - exact IH.
Qed.

(** A check on a healthy world, whatever it answers, keeps the world healthy
    and the rows within the limit; when it grants, the row it read is below
    the limit afterwards. *)
Lemma check_step uid w :
  healthy w -> Forall in_quota (users w) ->
  healthy (snd (check_daily_limit uid w))
  /\ Forall in_quota (users (snd (check_daily_limit uid w)))
  /\ (forall r, fst (check_daily_limit uid w) = Ok r ->
        exists u, stored uid (snd (check_daily_limit uid w)) = Some u
                  /\ queries_used_today u < DAILY_LIMIT).
Proof.
  intros H Q. destruct (stored uid w) as [u|] eqn:S.
  - destruct (fresh_day u (clock w)) eqn:F.
    + rewrite (check_fresh _ _ _ H S F). simpl. repeat split.
      * exact H.
      * apply update_rows_in_quota; [unfold DAILY_LIMIT; lia | exact Q].
      * intros _ _. exists (set_usage 0 (Some (clock w)) u). split.
        -- rewrite stored_update. unfold stored in S. now rewrite S.
        -- unfold DAILY_LIMIT. simpl. lia.
    + rewrite (check_same_day _ _ _ H S F). simpl. repeat split; try assumption.
      intros r. destruct (Z.geb_spec (queries_used_today u) 3); [discriminate|].
      intros _. exists u. split; [exact S | unfold DAILY_LIMIT; lia].
  - rewrite (check_missing _ _ H S). simpl. repeat split; try assumption.
    discriminate.
Qed.

Lemma increment_step uid w u :
  healthy w -> Forall in_quota (users w) ->
  stored uid w = Some u -> queries_used_today u < DAILY_LIMIT ->
  healthy (snd (increment_query_count uid w))
  /\ Forall in_quota (users (snd (increment_query_count uid w))).
Proof.
  intros H Q S L. rewrite (increment_healthy _ _ _ H S). simpl. split; [exact H|].
  apply update_rows_in_quota; [|exact Q].
  pose proof (stored_In _ _ _ S) as I.
  rewrite Forall_forall in Q. specialize (Q _ I). unfold in_quota in Q. lia.
Qed.

Lemma run_op_step op w :
  healthy w -> Forall in_quota (users w) ->
  healthy (run_op op w) /\ Forall in_quota (users (run_op op w)).
Proof.
  intros H Q. destruct op as [t uid | t1 t2 uid]; unfold run_op, at_time.
  - destruct (check_step uid (set_clock t w) H Q) as [H' [Q' _]]. now split.
  - destruct (check_step uid (set_clock t1 w) H Q) as [H' [Q' G]].
    destruct (check_daily_limit uid (set_clock t1 w)) as [[r|e] w1]; simpl in *.
    + destruct (G r eq_refl) as [u [S L]].
      apply (increment_step uid (set_clock t2 w1) u); assumption.
    + now split.
Qed.

(** The invariant when no external call fails.  On a healthy directory
    whose rows all have [queries_used_today] in
    [[0, DAILY_LIMIT]], after any sequence of quota operations run one after
    the other (checks alone, and checks followed by one increment when they
    grant) every row still has [queries_used_today] in [[0, DAILY_LIMIT]]. *)
Theorem quota_never_exceeds_limit ops w :
  healthy w ->
  Forall in_quota (users w) ->
  Forall in_quota (users (run_ops ops w)).
Proof.
  unfold run_ops. revert w. induction ops as [|op ops IH]; intros w H Q; simpl.
  - exact Q.
  - destruct (run_op_step op w H Q) as [H' Q']. now apply IH.
Qed.

Lemma quota_never_exceeds_limit_witness :
  Forall in_quota
    (users (run_ops [Spend Sample.noon Sample.noon "g-1";
                     Spend (Sample.noon + 1) (Sample.noon + 2) "g-1";
                     Peek (Sample.noon + 3) "g-1";
                     Spend (Sample.noon + 4) (Sample.noon + 5) "g-1";
                     Spend Sample.next_day Sample.next_day "g-1"]
              (Sample.world 2 (Some Sample.noon) Sample.noon []))).
Proof.
  apply quota_never_exceeds_limit.
  - reflexivity.
  - repeat constructor; unfold in_quota, DAILY_LIMIT; simpl; lia.
Defined.

(** ** [/chat] on a healthy world *)

Lemma run_agent_healthy message w :
  healthy w -> run_agent message w = (Ok tt, emit (AgentRun message) w).
Proof.
  intros H. unfold run_agent, bind. now rewrite (external_healthy _ _ H).
Qed.

Lemma chat_granted message current_user w u :
  healthy w -> stored (sub current_user) w = Some u ->
  fresh_day u (clock w) = true \/ queries_used_today u < 3 ->
  exists resp w',
    chat_with_agent message current_user w = (Ok resp, w')
    /\ cr_queries_remaining resp = allowance u (clock w) - 1
    /\ healthy w'
    /\ stored (sub current_user) w'
       = Some (set_usage (3 - allowance u (clock w) + 1) (Some (clock w)) u).
Proof.
  intros H S C. unfold chat_with_agent, try_except, bind, allowance.
  destruct (fresh_day u (clock w)) eqn:F.
  - rewrite (check_fresh _ _ _ H S F). cbv beta iota. unfold logger_info at 1.
    cbv beta iota.
    match goal with |- context [increment_query_count _ ?w1] =>
      assert (S1 : stored (sub current_user) w1
                   = Some (set_usage 0 (Some (clock w)) u))
    end.
    { unfold emit, stored. simpl. rewrite filter_update_rows.
      unfold stored in S. destruct (filter _ (users w)); [discriminate|].
      now injection S as ->. }
    rewrite ((fun Hw => increment_healthy _ _ _ Hw S1) H). cbv beta iota.
    rewrite run_agent_healthy by exact H. cbv beta iota.
    eexists _, _. split; [reflexivity|]. simpl. repeat split; try exact H.
    unfold stored. simpl. rewrite !filter_update_rows.
    unfold stored in S. destruct (filter _ (users w)); [discriminate|].
    now injection S as ->.
  - destruct C as [C|C]; [discriminate|].
    replace (3 - (3 - queries_used_today u) + 1)
      with (queries_used_today u + 1) by lia.
    rewrite (check_same_day _ _ _ H S F).
    destruct (Z.geb_spec (queries_used_today u) 3) as [G|G]; [lia|].
    cbv beta iota. unfold logger_info at 1. cbv beta iota.
    rewrite (increment_healthy _ _ u (healthy_emit _ _ H)) by exact S.
    cbv beta iota.
    rewrite run_agent_healthy by exact H. cbv beta iota.
    eexists _, _. split; [reflexivity|]. simpl. repeat split; try exact H.
    unfold stored. simpl. rewrite filter_update_rows.
    unfold stored in S. destruct (filter _ (users w)); [discriminate|].
    now injection S as ->.
Qed.

Lemma chat_denied message current_user w u :
  healthy w -> stored (sub current_user) w = Some u ->
  fresh_day u (clock w) = false -> queries_used_today u >= 3 ->
  chat_with_agent message current_user w
  = (Raise (HTTPException HTTP_429_TOO_MANY_REQUESTS
              "Daily query limit reached. You can make 3 queries per day."), w).
Proof.
  intros H S F G. unfold chat_with_agent, try_except, bind.
  rewrite (check_same_day _ _ _ H S F).
  destruct (Z.geb_spec (queries_used_today u) 3); [reflexivity|lia].
Qed.

(** One [/chat] request served at instant [t], by the state of the caller's
    row. *)
Lemma chat_at t message current_user w u r w' :
  healthy w -> stored (sub current_user) w = Some u ->
  at_time t (chat_with_agent message current_user) w = (r, w') ->
  (fresh_day u t = true ->
   outcome r = Granted 2 /\ healthy w'
   /\ stored (sub current_user) w' = Some (set_usage 1 (Some t) u))
  /\ (fresh_day u t = false -> queries_used_today u < 3 ->
      outcome r = Granted (3 - queries_used_today u - 1) /\ healthy w'
      /\ stored (sub current_user) w'
         = Some (set_usage (queries_used_today u + 1) (Some t) u))
  /\ (fresh_day u t = false -> queries_used_today u >= 3 ->
      outcome r = Denied 429 /\ healthy w'
      /\ stored (sub current_user) w' = Some u).
Proof.
  intros H S E. unfold at_time in E.
  assert (H1 : healthy (set_clock t w)) by exact H.
  assert (S1 : stored (sub current_user) (set_clock t w) = Some u) by exact S.
  destruct (fresh_day u t) eqn:F.
  - destruct (chat_granted message _ _ _ H1 S1 (or_introl F))
      as [resp [w1 [E1 [R [H' S']]]]].
    rewrite E in E1. injection E1 as -> ->.
    unfold allowance in R, S'. simpl clock in R, S'. rewrite F in R, S'.
    split; [intros _ | split; intros [=]].
    repeat split; [simpl; now rewrite R | exact H' | exact S'].
  - split; [intros [=] | split; intros _ Q].
    + destruct (chat_granted message _ _ _ H1 S1 (or_intror Q))
        as [resp [w1 [E1 [R [H' S']]]]].
      rewrite E in E1. injection E1 as -> ->.
      unfold allowance in R, S'. simpl clock in R, S'. rewrite F in R, S'.
      repeat split; [simpl; now rewrite R | exact H' |].
      rewrite S'. do 2 f_equal. lia.
    + rewrite (chat_denied message _ _ _ H1 S1 F Q) in E.
      injection E as <- <-. now repeat split.
Qed.

Lemma fresh_day_after q t u t' :
  fresh_day (set_usage q (Some t) u) t' = negb (date t =? date t').
Proof. reflexivity. Qed.

(** C4.  With [DAILY_LIMIT = 3], on a healthy world: a stored user with no
    usage yet today who sends [/chat] requests one after the other gets
    [queries_remaining] 2, 1 and 0 on the first three requests of the day
    (the result of the check minus one), a 429 on the fourth request of that
    day, and [queries_remaining = 2] on the first request of the next
    day. *)
Theorem chat_three_per_day current_user w u t1 t2 t3 t4 t5 m1 m2 m3 m4 m5 :
  healthy w ->
  stored (sub current_user) w = Some u ->
  fresh_day u t1 = true \/ queries_used_today u = 0 ->
  date t2 = date t1 -> date t3 = date t1 -> date t4 = date t1 ->
  date t5 = date t1 + 1 ->
  map outcome
    (fst (serve [(t1, m1); (t2, m2); (t3, m3); (t4, m4); (t5, m5)] current_user w))
  = [Granted 2; Granted 1; Granted 0; Denied HTTP_429_TOO_MANY_REQUESTS; Granted 2].
Proof.
  intros H S C D2 D3 D4 D5. simpl serve.
  destruct (at_time t1 _ w) as [r1 w1] eqn:E1.
  destruct (at_time t2 _ w1) as [r2 w2] eqn:E2.
  destruct (at_time t3 _ w2) as [r3 w3] eqn:E3.
  destruct (at_time t4 _ w3) as [r4 w4] eqn:E4.
  destruct (at_time t5 _ w4) as [r5 w5] eqn:E5.
  simpl.
  (* first request: one query used afterwards *)
  assert (A1 : outcome r1 = Granted 2 /\ healthy w1
               /\ stored (sub current_user) w1 = Some (set_usage 1 (Some t1) u)).
  { destruct (chat_at _ _ _ _ _ _ _ H S E1) as [Fr [Un _]].
    destruct (fresh_day u t1) eqn:F; [now apply Fr|].
    destruct C as [C|C]; [discriminate|].
    destruct (Un eq_refl ltac:(lia)) as [O [H' S']].
    rewrite C in O, S'. now repeat split. }
  destruct A1 as [O1 [H1 S1]].
  destruct (chat_at _ _ _ _ _ _ _ H1 S1 E2) as [_ [Un2 _]].
  destruct Un2 as [O2 [H2 S2]];
    [rewrite fresh_day_after, D2, Z.eqb_refl; reflexivity | simpl; lia |].
  simpl in O2, S2.
  destruct (chat_at _ _ _ _ _ _ _ H2 S2 E3) as [_ [Un3 _]].
  destruct Un3 as [O3 [H3 S3]];
    [rewrite fresh_day_after, D3, D2, Z.eqb_refl; reflexivity | simpl; lia |].
  simpl in O3, S3.
  destruct (chat_at _ _ _ _ _ _ _ H3 S3 E4) as [_ [_ Dn4]].
  destruct Dn4 as [O4 [H4 S4]];
    [rewrite fresh_day_after, D4, D3, Z.eqb_refl; reflexivity | simpl; lia |].
  destruct (chat_at _ _ _ _ _ _ _ H4 S4 E5) as [Fr5 _].
  destruct Fr5 as [O5 _].
  { rewrite fresh_day_after, D5, D3. apply negb_true_iff, Z.eqb_neq. lia. }
  now rewrite O1, O2, O3, O4, O5.
Qed.

Lemma chat_three_per_day_witness :
  map outcome
    (fst (serve [(Sample.noon, "buy?"); (Sample.noon + 60, "sell?");
                 (Sample.noon + 120, "hold?"); (Sample.noon + 180, "again?");
                 (Sample.next_day, "new day")]
            Sample.session
            (Sample.world 3 (Some (Sample.noon - 86400)) Sample.noon [])))
  = [Granted 2; Granted 1; Granted 0; Denied 429; Granted 2].
Proof.
  apply (chat_three_per_day Sample.session _
           (Sample.alice 3 (Some (Sample.noon - 86400)))).
  - reflexivity.
  - reflexivity.
  - left. reflexivity.
  - reflexivity.
  - reflexivity.
  - reflexivity.
  - reflexivity.
Defined.

(** ** Session credentials *)

(** C5.  Round trip: the credential that [create_jwt_token] mints for
    [(uid, mail)] is accepted by [verify_jwt_token] under the same secret at
    every instant strictly before its expiry, 24 hours after issuance, and
    the payload returned carries exactly that [sub] and that email. *)
Theorem session_round_trip secret hs uid mail w :
  exists token,
    create_jwt_token secret hs uid mail w = (Ok token, w)
    /\ forall w', clock w' < clock w + 24 * 3600 ->
         exists payload,
           verify_jwt_token secret hs token w' = (Ok payload, w')
           /\ sub payload = uid /\ pl_email payload = mail
           /\ exp payload = clock w + 24 * 3600.
Proof.
  eexists. split; [reflexivity|]. intros w' L.
  unfold verify_jwt_token, try_except, bind, jwt_encode, jwt_decode.
  rewrite String.eqb_refl. simpl. unfold utcnow, bind, timedelta_days.
  destruct (Z.ltb_spec (clock w') (clock w + 86400)) as [_|G]; [|lia].
  eexists. split; [reflexivity|]. simpl. now repeat split.
Qed.

Lemma session_round_trip_witness :
  exists payload,
    verify_jwt_token "secret" Sample.tag
      (Compact (mkPayload "g-1" "alice@example.com" (Sample.noon + 86400))
         "secret/g-1/alice@example.com")
      (Sample.world 0 None (Sample.noon + 86399) [])
    = (Ok payload, Sample.world 0 None (Sample.noon + 86399) [])
    /\ sub payload = "g-1" /\ pl_email payload = "alice@example.com".
Proof.
  destruct (session_round_trip "secret" Sample.tag "g-1" "alice@example.com"
              (Sample.world 0 None Sample.noon [])) as [token [E V]].
  injection E as <-.
  destruct (V (Sample.world 0 None (Sample.noon + 86399) [])) as [p [E' [A [B _]]]].
  - vm_compute. reflexivity.
  - exists p. repeat split; assumption.
Defined.

(** C6.  A credential signed with the secret is accepted whenever
    [now < exp] and refused with the 401 "Token has expired" from
    [now = exp] onward: accepted one second before [exp], refused at [exp]
    and one second after. *)
Theorem session_expiry_boundary secret hs claims w :
  let token := jwt_encode hs claims secret in
  let expired := Raise (HTTPException HTTP_401_UNAUTHORIZED "Token has expired") in
  (clock w < exp claims -> verify_jwt_token secret hs token w = (Ok claims, w))
  /\ (exp claims <= clock w -> verify_jwt_token secret hs token w = (expired, w))
  /\ fst (at_time (exp claims - 1) (verify_jwt_token secret hs token) w) = Ok claims
  /\ fst (at_time (exp claims) (verify_jwt_token secret hs token) w) = expired
  /\ fst (at_time (exp claims + 1) (verify_jwt_token secret hs token) w) = expired.
Proof.
  assert (V : forall w0,
             verify_jwt_token secret hs (jwt_encode hs claims secret) w0
             = (if clock w0 <? exp claims
                then Ok claims
                else Raise (HTTPException HTTP_401_UNAUTHORIZED "Token has expired"),
                w0)).
  { intros w0. unfold verify_jwt_token, try_except, bind, jwt_encode, jwt_decode.
    rewrite String.eqb_refl. simpl. unfold utcnow, bind.
    now destruct (clock w0 <? exp claims). }
  intros token expired. subst token expired. unfold at_time. rewrite !V. simpl.
  repeat split.
  - intros L. now destruct (Z.ltb_spec (clock w) (exp claims)); [|lia].
  - intros L. now destruct (Z.ltb_spec (clock w) (exp claims)); [lia|].
  - now destruct (Z.ltb_spec (exp claims - 1) (exp claims)); [|lia].
  - now rewrite Z.ltb_irrefl.
  - now destruct (Z.ltb_spec (exp claims + 1) (exp claims)); [lia|].
Qed.

Lemma session_expiry_boundary_witness :
  verify_jwt_token "secret" Sample.tag (jwt_encode Sample.tag Sample.session "secret")
    (Sample.world 0 None (Sample.noon + 86399) [])
  = (Ok Sample.session, Sample.world 0 None (Sample.noon + 86399) [])
  /\ verify_jwt_token "secret" Sample.tag (jwt_encode Sample.tag Sample.session "secret")
       (Sample.world 0 None (Sample.noon + 86400) [])
     = (Raise (HTTPException 401 "Token has expired"),
        Sample.world 0 None (Sample.noon + 86400) []).
Proof.
  split.
  - apply (session_expiry_boundary "secret" Sample.tag Sample.session
             (Sample.world 0 None (Sample.noon + 86399) [])).
    vm_compute. reflexivity.
  - apply (session_expiry_boundary "secret" Sample.tag Sample.session
             (Sample.world 0 None (Sample.noon + 86400) [])).
    vm_compute. discriminate.
Defined.

(** ** Identity verification failures *)

Lemma verify_google_token_rejects client verifier id_token_str w :
  fails_verification verifier client id_token_str (clock w) ->
  exists e,
    verify_google_token client verifier id_token_str w
    = (Raise (HTTPException HTTP_401_UNAUTHORIZED "Invalid Google token"),
       emit (LogError "Google token verification failed" e) w).
Proof.
  unfold verify_google_token, try_except, bind, utcnow.
  intros [[e E] | [idinfo [i [E [I T]]]]]; rewrite E.
  - now exists e.
  - rewrite I. simpl. rewrite T. simpl. now eexists.
Qed.

(** C7.  For every identity assertion that fails verification (refused by
    the verifier library, as for a bad signature or an expired assertion, or
    issued by an untrusted issuer), [google_auth] raises the 401
    [HTTPException] and the table of users is exactly what it was. *)
Theorem google_auth_rejects_atomically secret client hs verifier id_token_str w :
  fails_verification verifier client id_token_str (clock w) ->
  fst (google_auth secret client hs verifier id_token_str w)
  = Raise (HTTPException HTTP_401_UNAUTHORIZED "Invalid Google token")
  /\ users (snd (google_auth secret client hs verifier id_token_str w)) = users w.
Proof.
  intros F. destruct (verify_google_token_rejects _ _ _ _ F) as [e E].
  unfold google_auth, try_except, bind. rewrite E. now split.
Qed.

Lemma google_auth_rejects_atomically_witness :
  fst (google_auth "secret" "client" Sample.tag Sample.verifier "foreign"
         (Sample.world 0 None Sample.noon []))
  = Raise (HTTPException 401 "Invalid Google token")
  /\ users (snd (google_auth "secret" "client" Sample.tag Sample.verifier "forged"
                   (Sample.world 0 None Sample.noon [])))
     = users (Sample.world 0 None Sample.noon []).
Proof.
  split.
  - apply (google_auth_rejects_atomically "secret" "client" Sample.tag
             Sample.verifier "foreign").
    right. eexists _, _. repeat split; reflexivity.
  - apply (google_auth_rejects_atomically "secret" "client" Sample.tag
             Sample.verifier "forged").
    left. eexists. reflexivity.
Defined.

(** ** Increment and its failures *)

Lemma increment_never_raises uid w : fst (increment_query_count uid w) = Ok tt.
Proof.
  unfold increment_query_count, try_except.
  match goal with |- context [match ?m with _ => _ end] => destruct m as [[[]|e] w'] end;
    reflexivity.
Qed.

Lemma increment_persist_fails uid w u fs :
  faults w = false :: true :: fs -> stored uid w = Some u ->
  increment_query_count uid w
  = (Ok tt, emit (LogError "Error incrementing query count" (Exception "APIError"))
              (set_faults fs w)).
Proof.
  intros E S. destruct (stored_data _ _ _ S) as [rest D].
  unfold increment_query_count, try_except, bind, select_eq, update_eq, bind, external.
  rewrite E. simpl. rewrite D. simpl. reflexivity.
Qed.

(** C8 as the code has it.  [increment_query_count] reads the stored row and
    writes [queries_used_today + 1] with the current instant as
    [last_query_date]; it never raises, whatever fails; when the write
    fails the table is unchanged and the failure is logged; and in
    [chat_with_agent], once the check has granted, the agent is invoked
    after the increment attempt and the request answers with the check
    result minus one whether or not the increment was persisted. *)
Theorem increment_best_effort message current_user :
  let uid := sub current_user in
  (forall w u, healthy w -> stored uid w = Some u ->
     fst (increment_query_count uid w) = Ok tt
     /\ stored uid (snd (increment_query_count uid w))
        = Some (set_usage (queries_used_today u + 1) (Some (clock w)) u))
  /\ (forall w, fst (increment_query_count uid w) = Ok tt)
  /\ (forall w u fs, faults w = false :: true :: fs -> stored uid w = Some u ->
        users (snd (increment_query_count uid w)) = users w
        /\ trace (snd (increment_query_count uid w))
           = (trace w ++ [LogError "Error incrementing query count"
                            (Exception "APIError")])%list)
  /\ (forall w r w1 w4,
        check_daily_limit uid w = (Ok r, w1) ->
        let w2 := emit (LogInfo ("User " ++ uid ++ " sent message: "
                                 ++ substring 0 50 message ++ "...")) w1 in
        let w3 := snd (increment_query_count uid w2) in
        run_agent message w3 = (Ok tt, w4) ->
        (exists resp,
            chat_with_agent message current_user w = (Ok resp, w4)
            /\ cr_queries_remaining resp = r - 1)
        /\ trace w4 = (trace w3 ++ [AgentRun message])%list).
Proof.
  intros uid. split; [|split; [|split]].
  - intros w u H S. split; [apply increment_never_raises|].
    rewrite (increment_healthy _ _ _ H S). simpl.
    rewrite stored_update. unfold stored in S. now rewrite S.
  - intros w. apply increment_never_raises.
  - intros w u fs F S. now rewrite (increment_persist_fails _ _ _ _ F S).
  - intros w r w1 w4 C w2 w3 A. split.
    + unfold chat_with_agent, try_except, bind. fold uid. rewrite C. cbv beta iota.
      unfold logger_info at 1. cbv beta iota. fold w2.
      pose proof (increment_never_raises uid w2) as N.
      subst w3. destruct (increment_query_count uid w2) as [ri wi].
      simpl in N, A. subst ri. rewrite A. cbv beta iota.
      eexists. split; reflexivity.
    + unfold run_agent, bind, external in A.
      destruct (faults w3) as [|[] fs]; try discriminate; now injection A as <-.
Qed.

Lemma increment_best_effort_witness :
  stored "g-1"
    (snd (increment_query_count "g-1" (Sample.world 1 (Some Sample.noon) (Sample.noon + 60) [])))
  = Some (Sample.alice 2 (Some (Sample.noon + 60)))
  /\ users (snd (increment_query_count "g-1"
                   (Sample.world 1 (Some Sample.noon) (Sample.noon + 60) [false; true])))
     = [Sample.bob; Sample.alice 1 (Some Sample.noon)].
Proof.
  destruct (increment_best_effort "hello" Sample.session) as [A [_ [C _]]].
  split.
  - apply (A (Sample.world 1 (Some Sample.noon) (Sample.noon + 60) [])
             (Sample.alice 1 (Some Sample.noon))); reflexivity.
  - apply (C (Sample.world 1 (Some Sample.noon) (Sample.noon + 60) [false; true])
             (Sample.alice 1 (Some Sample.noon)) []); reflexivity.
Defined.

(** C8 as the claim words it: a failed increment would find the downstream
    action already performed.  On the code the agent runs after the
    increment: here the write of the increment fails, the request succeeds,
    and the failure is logged before the agent has run. *)
Lemma increment_failure_precedes_agent :
  ~ agent_ran_before_increment_failure.
Proof.
  intros P.
  specialize (P "buy?" Sample.session
                (Sample.world 1 (Some Sample.noon) (Sample.noon + 60) [false; false; true])).
  destruct (chat_with_agent "buy?" Sample.session
              (Sample.world 1 (Some Sample.noon) (Sample.noon + 60) [false; false; true]))
    as [r w'] eqn:E.
  vm_compute in E. injection E as <- <-.
  specialize (P _ _ [LogInfo "User g-1 sent message: buy?..."]
                (Exception "APIError") [AgentRun "buy?"] eq_refl eq_refl).
  destruct P as [P|[]]. discriminate P.
Qed.

(** ** Profile during a pending rollover *)

Lemma serve_reachable requests current_user w :
  reachable w -> reachable (snd (serve requests current_user w)).
Proof.
  revert w. induction requests as [|[t message] rest IH]; intros w R; simpl.
  - exact R.
  - pose proof (reach_chat t message current_user w R) as R1.
    destruct (at_time t (chat_with_agent message current_user) w) as [r w1].
    specialize (IH w1 R1).
    now destruct (serve rest current_user w1).
Qed.

Lemma spent_reachable : reachable Sample.spent.
Proof. apply serve_reachable, reach_auth, reach_init. Qed.

(** C10.  For a stored user whose [last_query_date] is absent or not on
    today's date, on a healthy directory, [get_user_profile] answers with the
    [queries_used_today] and [last_query_date] read before the reset and
    with [queries_remaining = DAILY_LIMIT] computed after it; and some
    reachable world gives an answer with [queries_used_today = 3] and
    [queries_remaining = 3], whose sum exceeds [DAILY_LIMIT]. *)
Theorem profile_mixes_stale_and_fresh :
  (forall current_user w u,
      healthy w ->
      stored (sub current_user) w = Some u ->
      fresh_day u (clock w) = true ->
      exists profile,
        fst (get_user_profile current_user w) = Ok profile
        /\ up_queries_used_today profile = queries_used_today u
        /\ up_last_query_date profile = last_query_date u
        /\ up_queries_remaining profile = DAILY_LIMIT
        /\ stored (sub current_user) (snd (get_user_profile current_user w))
           = Some (set_usage 0 (Some (clock w)) u))
  /\ (exists t current_user w profile,
        reachable w
        /\ fst (at_time t (get_user_profile current_user) w) = Ok profile
        /\ up_queries_used_today profile = 3
        /\ up_queries_remaining profile = 3
        /\ up_queries_used_today profile + up_queries_remaining profile > DAILY_LIMIT).
Proof.
  split.
  - intros current_user w u H S F. destruct (stored_data _ _ _ S) as [rest E].
    unfold get_user_profile, try_except, bind.
    rewrite (select_eq_healthy _ _ H), E. simpl.
    rewrite (check_fresh _ _ _ H S F). simpl.
    eexists. split; [reflexivity|]. simpl. repeat split.
    rewrite stored_update. unfold stored in S. now rewrite S.
  - exists Sample.next_day, Sample.session, Sample.spent.
    eexists. split; [exact spent_reachable|].
    split; [vm_compute; reflexivity|]. now vm_compute.
Qed.

Lemma profile_mixes_stale_and_fresh_witness :
  exists profile,
    fst (get_user_profile Sample.session
           (Sample.world 3 (Some Sample.noon) Sample.next_day []))
    = Ok profile
    /\ up_queries_used_today profile = 3
    /\ up_queries_remaining profile = 3.
Proof.
  destruct profile_mixes_stale_and_fresh as [G _].
  destruct (G Sample.session (Sample.world 3 (Some Sample.noon) Sample.next_day [])
              (Sample.alice 3 (Some Sample.noon)))
    as [p [E [U [_ [R _]]]]]; [reflexivity | reflexivity | reflexivity |].
  exists p. repeat split; assumption.
Defined.

(** ** Get-or-create, one call after the other *)

Lemma insert_healthy new_user w :
  healthy w ->
  insert new_user w = (Ok [new_user], set_users (users w ++ [new_user]) w).
Proof.
  intros H. unfold insert, bind. now rewrite (external_healthy _ _ H).
Qed.

Lemma get_or_create_user_existing user_info w u :
  healthy w -> stored (ui_user_id user_info) w = Some u ->
  get_or_create_user user_info w = (Ok u, w).
Proof.
  intros H S. destruct (stored_data _ _ _ S) as [rest E].
  unfold get_or_create_user, try_except, bind.
  now rewrite (select_eq_healthy _ _ H), E.
Qed.

Lemma get_or_create_user_new user_info w :
  healthy w -> stored (ui_user_id user_info) w = None ->
  let new_user := mkUser (ui_user_id user_info) (ui_email user_info)
                    (ui_name user_info) 0 None (clock w) in
  get_or_create_user user_info w
  = (Ok new_user, set_users (users w ++ [new_user]) w).
Proof.
  intros H S new_user. unfold stored in S.
  unfold get_or_create_user, try_except, bind.
  rewrite (select_eq_healthy _ _ H).
  destruct (filter (matches (ui_user_id user_info)) (users w)); [|discriminate].
  unfold utcnow. fold new_user. now rewrite (insert_healthy _ _ H).
Qed.

(** A first call for an unseen subject followed by any number of further
    calls: every call returns the row created by the first, and the table
    holds exactly that one row for the subject. *)
Lemma get_or_create_user_repeated user_info w n :
  healthy w -> stored (ui_user_id user_info) w = None ->
  let new_user := mkUser (ui_user_id user_info) (ui_email user_info)
                    (ui_name user_info) 0 None (clock w) in
  let w1 := snd (get_or_create_user user_info w) in
  Nat.iter n (fun w' => snd (get_or_create_user user_info w')) w1 = w1
  /\ get_or_create_user user_info w1 = (Ok new_user, w1)
  /\ filter (matches (ui_user_id user_info)) (users w1) = [new_user].
Proof.
  intros H S new_user w1. subst w1.
  rewrite (get_or_create_user_new _ _ H S). fold new_user. simpl snd.
  assert (F : filter (matches (ui_user_id user_info))
                (users (set_users (users w ++ [new_user]) w)) = [new_user]).
  { simpl. rewrite filter_app. unfold stored in S.
    destruct (filter (matches (ui_user_id user_info)) (users w)); [|discriminate].
    simpl. unfold matches. simpl. now rewrite String.eqb_refl. }
  assert (G : get_or_create_user user_info (set_users (users w ++ [new_user]) w)
              = (Ok new_user, set_users (users w ++ [new_user]) w)).
  { apply get_or_create_user_existing; [exact H|]. unfold stored. now rewrite F. }
  repeat split; [|exact G|exact F].
  induction n as [|n IH]; simpl; [reflexivity|]. now rewrite IH, G.
Qed.

(** ** Outside a healthy directory *)

(** [reset_daily_queries] logs a failed write and returns; the check then
    still answers 3 over the stale row, and an increment that follows
    stores 4. *)
Remark reset_failure_is_swallowed :
  let w := Sample.world 3 (Some Sample.noon) Sample.next_day [false; true] in
  fst (check_daily_limit "g-1" w) = Ok 3
  /\ users (snd (check_daily_limit "g-1" w)) = users w
  /\ stored "g-1" (snd (increment_query_count "g-1" (snd (check_daily_limit "g-1" w))))
     = Some (Sample.alice 4 (Some Sample.next_day)).
Proof. vm_compute. repeat split. Qed.

(** * Further properties of the handlers *)

(** ** Frame: which rows and fields an operation can touch *)

Lemma usage_edit_refl uid us : usage_edit uid us us.
Proof. unfold usage_edit. induction us; constructor; auto. Qed.

Lemma usage_edit_trans uid us1 us2 us3 :
  usage_edit uid us1 us2 -> usage_edit uid us2 us3 -> usage_edit uid us1 us3.
Proof.
  unfold usage_edit. intros E12. revert us3.
  induction E12 as [|a b us1 us2 Hab _ IH]; intros us3 E23; inversion E23; subst.
  - constructor.
  - constructor; [|now apply IH].
    destruct Hab as [-> | [Ua Iab]]; [assumption|].
    match goal with H : _ \/ _ |- _ => destruct H as [-> | [Ub Ibc]] end.
    + right. now split.
    + right. split; [exact Ua | congruence].
Qed.

Lemma usage_edit_update_rows uid q d us :
  usage_edit uid us (update_rows uid q d us).
Proof.
  unfold usage_edit, update_rows. induction us as [|u us IH]; simpl; constructor.
  - unfold matches. destruct (String.eqb_spec (user_id u) uid) as [E|_].
    + right. now split.
    + now left.
  - exact IH.
Qed.

Lemma usage_edit_length uid us us' :
  usage_edit uid us us' -> List.length us' = List.length us.
Proof. intros E. symmetry. exact (Forall2_length E). Qed.

Lemma usage_edit_identity uid us us' :
  usage_edit uid us us' -> map identity us' = map identity us.
Proof.
  unfold usage_edit. induction 1 as [|a b us us' [-> | [_ I]] _ IH]; simpl;
    [reflexivity | now rewrite IH | now rewrite IH, I].
Qed.

Lemma usage_edit_others uid uid' us us' :
  usage_edit uid us us' -> uid' <> uid ->
  filter (matches uid') us' = filter (matches uid') us.
Proof.
  unfold usage_edit. intros E N.
  induction E as [|a b us us' [-> | [Ua I]] _ IH]; simpl.
  - reflexivity.
  - now rewrite IH.
  - assert (Ub : user_id b = user_id a) by (unfold identity in I; congruence).
    unfold matches. rewrite Ub, Ua.
    destruct (String.eqb_spec uid uid') as [->|_]; [contradiction|exact IH].
Qed.

(** ** Relations kept by every step of a computation *)

Lemma keeps_ret {A} R (a : A) : (forall w, R w w) -> keeps R (ret a).
Proof. intros Rf w. apply Rf. Qed.

Lemma keeps_raise {A} R e : (forall w, R w w) -> keeps R (@raise A e).
Proof. intros Rf w. apply Rf. Qed.

Lemma keeps_bind {A B} R (m : M A) (f : A -> M B) :
  (forall a b c, R a b -> R b c -> R a c) ->
  keeps R m -> (forall a, keeps R (f a)) -> keeps R (bind m f).
Proof.
  intros Rt Km Kf w. unfold bind. specialize (Km w).
  destruct (m w) as [[a|e] w1]; simpl in *; [|exact Km].
  exact (Rt _ _ _ Km (Kf a w1)).
Qed.

Lemma keeps_try_except {A} R (m : M A) (h : Exc -> M A) :
  (forall a b c, R a b -> R b c -> R a c) ->
  keeps R m -> (forall e, keeps R (h e)) -> keeps R (try_except m h).
Proof.
  intros Rt Km Kh w. unfold try_except. specialize (Km w).
  destruct (m w) as [[a|e] w1]; simpl in *; [exact Km|].
  exact (Rt _ _ _ Km (Kh e w1)).
Qed.

Lemma keeps_external R cls :
  (forall w, R w w) -> (forall fs w, R w (set_faults fs w)) -> keeps R (external cls).
Proof.
  intros Rf Rs w. unfold external. destruct (faults w) as [|[] fs] eqn:E; simpl; auto.
Qed.

Lemma keeps_utcnow R : (forall w, R w w) -> keeps R utcnow.
Proof. intros Rf w. apply Rf. Qed.

Lemma keeps_logger_error R prefix e :
  (forall ev w, (forall m, ev <> AgentRun m) -> R w (emit ev w)) ->
  keeps R (logger_error prefix e).
Proof. intros Re w. apply Re. discriminate. Qed.

Lemma keeps_logger_info R msg :
  (forall ev w, (forall m, ev <> AgentRun m) -> R w (emit ev w)) ->
  keeps R (logger_info msg).
Proof. intros Re w. apply Re. discriminate. Qed.

Lemma keeps_data0 R data : (forall w, R w w) -> keeps R (data0 data).
Proof. intros Rf. destruct data; intros w; apply Rf. Qed.

Lemma keeps_select_eq R uid :
  (forall a b c, R a b -> R b c -> R a c) ->
  (forall w, R w w) -> (forall fs w, R w (set_faults fs w)) -> keeps R (select_eq uid).
Proof.
  intros Rt Rf Rs. apply keeps_bind; [exact Rt | now apply keeps_external|].
  intros _ w. apply Rf.
Qed.

Lemma keeps_update_eq R uid q d :
  (forall a b c, R a b -> R b c -> R a c) ->
  (forall w, R w w) -> (forall fs w, R w (set_faults fs w)) ->
  (forall w, R w (set_users (update_rows uid q d (users w)) w)) ->
  keeps R (update_eq uid q d).
Proof.
  intros Rt Rf Rs Ru. apply keeps_bind; [exact Rt | now apply keeps_external|].
  intros _ w. apply Ru.
Qed.

(** *** The three relations *)

Lemma frame_rel_refl uid w : frame_rel uid w w.
Proof. apply usage_edit_refl. Qed.

Lemma frame_rel_trans uid a b c :
  frame_rel uid a b -> frame_rel uid b c -> frame_rel uid a c.
Proof. apply usage_edit_trans. Qed.

Lemma frame_rel_set_faults uid fs w : frame_rel uid w (set_faults fs w).
Proof. apply usage_edit_refl. Qed.

Lemma frame_rel_emit uid ev w :
  (forall m, ev <> AgentRun m) -> frame_rel uid w (emit ev w).
Proof. intros _. apply usage_edit_refl. Qed.

Lemma frame_rel_update uid q d w :
  frame_rel uid w (set_users (update_rows uid q d (users w)) w).
Proof. apply usage_edit_update_rows. Qed.

Lemma quiet_rel_refl w : quiet_rel w w.
Proof. reflexivity. Qed.

Lemma quiet_rel_trans a b c : quiet_rel a b -> quiet_rel b c -> quiet_rel a c.
Proof. unfold quiet_rel. congruence. Qed.

Lemma quiet_rel_set_faults fs w : quiet_rel w (set_faults fs w).
Proof. reflexivity. Qed.

Lemma quiet_rel_emit ev w : (forall m, ev <> AgentRun m) -> quiet_rel w (emit ev w).
Proof.
  intros N. unfold quiet_rel, agent_runs, emit. simpl.
  rewrite filter_app, length_app. simpl.
  destruct ev; simpl; try lia. now contradiction (N message).
Qed.

Lemma quiet_rel_update uid q d w :
  quiet_rel w (set_users (update_rows uid q d (users w)) w).
Proof. reflexivity. Qed.

Lemma tidy_rel_refl w : tidy_rel w w.
Proof. now split. Qed.

Lemma tidy_rel_trans a b c : tidy_rel a b -> tidy_rel b c -> tidy_rel a c.
Proof. unfold tidy_rel. intros [C1 H1] [C2 H2]. split; [congruence | auto]. Qed.

Lemma tidy_rel_emit ev w : (forall m, ev <> AgentRun m) -> tidy_rel w (emit ev w).
Proof. now split. Qed.

Lemma tidy_rel_update uid q d w :
  tidy_rel w (set_users (update_rows uid q d (users w)) w).
Proof. now split. Qed.

Create HintDb keeps.

#[local] Hint Resolve frame_rel_refl frame_rel_trans frame_rel_set_faults
  frame_rel_emit frame_rel_update quiet_rel_refl quiet_rel_trans
  quiet_rel_set_faults quiet_rel_emit quiet_rel_update tidy_rel_refl
  tidy_rel_trans tidy_rel_emit tidy_rel_update : keeps.

(** [external] keeps [tidy_rel] although it consumes a flag: a healthy world
    has no flag to consume. *)
Lemma tidy_external cls : keeps tidy_rel (external cls).
Proof.
  intros w. unfold external, tidy_rel, healthy.
  destruct (faults w) as [|[] fs] eqn:E; simpl; split; auto; discriminate.
Qed.

Lemma tidy_select_eq uid : keeps tidy_rel (select_eq uid).
Proof.
  apply keeps_bind; [apply tidy_rel_trans | apply tidy_external|].
  intros _ w. apply tidy_rel_refl.
Qed.

Lemma tidy_update_eq uid q d : keeps tidy_rel (update_eq uid q d).
Proof.
  apply keeps_bind; [apply tidy_rel_trans | apply tidy_external|].
  intros _ w. apply tidy_rel_update.
Qed.

Lemma tidy_run_agent message : keeps tidy_rel (run_agent message).
Proof.
  apply keeps_bind; [apply tidy_rel_trans | apply tidy_external|].
  intros _ w. now split.
Qed.

Lemma frame_run_agent uid message : keeps (frame_rel uid) (run_agent message).
Proof.
  apply keeps_bind; [apply frame_rel_trans | apply keeps_external; auto with keeps|].
  intros _ w. apply usage_edit_refl.
Qed.

#[local] Hint Resolve tidy_external tidy_select_eq tidy_update_eq tidy_run_agent
  frame_run_agent : keeps.

Ltac keeps_step :=
  match goal with
  | |- keeps _ (try_except _ _) =>
      apply keeps_try_except; [solve [eauto with keeps] | | intros ?]
  | |- keeps _ (bind _ _) =>
      apply keeps_bind; [solve [eauto with keeps] | | intros ?]
  | |- keeps _ (if ?c then _ else _) => destruct c
  | |- keeps _ (match ?e with HTTPException _ _ => _ | Exception _ => _ end) =>
      destruct e
  | |- keeps _ (match ?l with nil => _ | cons _ _ => _ end) => destruct l
  | |- keeps _ _ => solve [eauto with keeps]
  | |- keeps _ (ret _) => apply keeps_ret; solve [eauto with keeps]
  | |- keeps _ (raise _) => apply keeps_raise; solve [eauto with keeps]
  | |- keeps _ utcnow => apply keeps_utcnow; solve [eauto with keeps]
  | |- keeps _ (data0 _) => apply keeps_data0; solve [eauto with keeps]
  | |- keeps _ (logger_error _ _) => apply keeps_logger_error; solve [eauto with keeps]
  | |- keeps _ (logger_info _) => apply keeps_logger_info; solve [eauto with keeps]
  | |- keeps _ (select_eq _) => apply keeps_select_eq; solve [eauto with keeps]
  | |- keeps _ (update_eq _ _ _) => apply keeps_update_eq; solve [eauto with keeps]
  end.

Lemma frame_reset uid : keeps (frame_rel uid) (reset_daily_queries uid).
Proof. unfold reset_daily_queries. repeat keeps_step. Qed.

Lemma quiet_reset uid : keeps quiet_rel (reset_daily_queries uid).
Proof. unfold reset_daily_queries. repeat keeps_step. Qed.

Lemma tidy_reset uid : keeps tidy_rel (reset_daily_queries uid).
Proof. unfold reset_daily_queries. repeat keeps_step. Qed.

#[local] Hint Resolve frame_reset quiet_reset tidy_reset : keeps.

Lemma frame_check uid : keeps (frame_rel uid) (check_daily_limit uid).
Proof. unfold check_daily_limit. repeat keeps_step. Qed.

Lemma quiet_check uid : keeps quiet_rel (check_daily_limit uid).
Proof. unfold check_daily_limit. repeat keeps_step. Qed.

Lemma tidy_check uid : keeps tidy_rel (check_daily_limit uid).
Proof. unfold check_daily_limit. repeat keeps_step. Qed.

Lemma frame_increment uid : keeps (frame_rel uid) (increment_query_count uid).
Proof. unfold increment_query_count. repeat keeps_step. Qed.

Lemma quiet_increment uid : keeps quiet_rel (increment_query_count uid).
Proof. unfold increment_query_count. repeat keeps_step. Qed.

Lemma tidy_increment uid : keeps tidy_rel (increment_query_count uid).
Proof. unfold increment_query_count. repeat keeps_step. Qed.

#[local] Hint Resolve frame_check quiet_check tidy_check frame_increment
  quiet_increment tidy_increment : keeps.

Lemma frame_chat message current_user :
  keeps (frame_rel (sub current_user)) (chat_with_agent message current_user).
Proof. unfold chat_with_agent. repeat keeps_step. Qed.

Lemma tidy_chat message current_user :
  keeps tidy_rel (chat_with_agent message current_user).
Proof. unfold chat_with_agent. repeat keeps_step. Qed.

Lemma frame_profile current_user :
  keeps (frame_rel (sub current_user)) (get_user_profile current_user).
Proof. unfold get_user_profile. repeat keeps_step. Qed.

Lemma quiet_profile current_user :
  keeps quiet_rel (get_user_profile current_user).
Proof. unfold get_user_profile. repeat keeps_step. Qed.

Lemma tidy_profile current_user :
  keeps tidy_rel (get_user_profile current_user).
Proof. unfold get_user_profile. repeat keeps_step. Qed.

Lemma frame_rel_confined uid w w' : frame_rel uid w w' -> confined uid w w'.
Proof.
  intros F. repeat split.
  - exact (usage_edit_length _ _ _ F).
  - exact (usage_edit_identity _ _ _ F).
  - intros uid' N. exact (usage_edit_others _ _ _ _ F N).
Qed.

(** ** Quota operations are confined to the caller's usage fields *)

(** Whatever the outcome of the external calls, a check, an increment, a
    reset, a profile read and a chat request for one user keep the number
    of rows, keep every row's identity fields, and leave the rows of every
    other user exactly as they were. *)
Theorem quota_operations_confined uid message current_user w :
  confined uid w (snd (check_daily_limit uid w))
  /\ confined uid w (snd (increment_query_count uid w))
  /\ confined uid w (snd (reset_daily_queries uid w))
  /\ confined (sub current_user) w (snd (get_user_profile current_user w))
  /\ confined (sub current_user) w (snd (chat_with_agent message current_user w)).
Proof.
  split; [|split; [|split; [|split]]]; apply frame_rel_confined.
  - apply frame_check.
  - apply frame_increment.
  - apply frame_reset.
  - apply frame_profile.
  - apply frame_chat.
Qed.

Lemma quota_operations_confined_witness :
  filter (matches "g-2")
    (users (snd (chat_with_agent "buy?" Sample.session
                   (Sample.world 1 (Some Sample.noon) Sample.next_day [false; true]))))
  = [Sample.bob].
Proof.
  destruct (quota_operations_confined "g-1" "buy?" Sample.session
              (Sample.world 1 (Some Sample.noon) Sample.next_day [false; true]))
    as [_ [_ [_ [_ [_ [_ O]]]]]].
  rewrite (O "g-2"); [reflexivity | discriminate].
Defined.

Lemma usage_edit_absent uid us us' :
  usage_edit uid us us' -> filter (matches uid) us = [] -> us' = us.
Proof.
  unfold usage_edit. induction 1 as [|a b us us' Hab _ IH]; simpl; [reflexivity|].
  unfold matches at 1. destruct (String.eqb_spec (user_id a) uid) as [E|N].
  - discriminate.
  - intros F. destruct Hab as [-> | [Ua _]]; [|contradiction]. now rewrite IH.
Qed.

(** For a subject with no row in the table, no quota operation writes
    anything, whatever the outcome of the external calls: the table after a
    check, an increment, a reset, a profile read or a chat request is the
    table before. *)
Theorem unknown_subject_never_written message current_user w :
  stored (sub current_user) w = None ->
  let uid := sub current_user in
  users (snd (check_daily_limit uid w)) = users w
  /\ users (snd (increment_query_count uid w)) = users w
  /\ users (snd (reset_daily_queries uid w)) = users w
  /\ users (snd (get_user_profile current_user w)) = users w
  /\ users (snd (chat_with_agent message current_user w)) = users w.
Proof.
  intros S uid.
  assert (E : filter (matches uid) (users w) = []).
  { unfold stored in S. fold uid in S. now destruct (filter (matches uid) (users w)). }
  repeat split; apply (usage_edit_absent uid); try exact E.
  - apply frame_check.
  - apply frame_increment.
  - apply frame_reset.
  - apply frame_profile.
  - apply frame_chat.
Qed.

Lemma unknown_subject_never_written_witness :
  users (snd (chat_with_agent "buy?" (mkPayload "g-7" "eve@example.com" 0)
                (Sample.world 1 (Some Sample.noon) Sample.noon [])))
  = [Sample.bob; Sample.alice 1 (Some Sample.noon)].
Proof.
  apply (unknown_subject_never_written "buy?" (mkPayload "g-7" "eve@example.com" 0)
           (Sample.world 1 (Some Sample.noon) Sample.noon [])).
  reflexivity.
Defined.

(** ** Outcomes of a check, whatever fails *)

Lemma reset_never_raises uid w : fst (reset_daily_queries uid w) = Ok tt.
Proof.
  unfold reset_daily_queries, try_except.
  match goal with |- context [match ?m with _ => _ end] => destruct m as [[[]|e] w'] end;
    reflexivity.
Qed.

Lemma select_eq_cases uid w :
  (fst (select_eq uid w) = Ok (filter (matches uid) (users w))
   \/ fst (select_eq uid w) = Raise (Exception "APIError"))
  /\ users (snd (select_eq uid w)) = users w
  /\ clock (snd (select_eq uid w)) = clock w.
Proof.
  unfold select_eq, bind, external.
  destruct (faults w) as [|[] fs]; simpl; auto.
Qed.

Lemma check_outcomes uid w :
  match fst (check_daily_limit uid w) with
  | Ok r =>
      1 <= r
      /\ exists u, stored uid w = Some u
                   /\ r = if fresh_day u (clock w) then 3 else 3 - queries_used_today u
  | Raise e =>
      (e = HTTPException HTTP_429_TOO_MANY_REQUESTS
             "Daily query limit reached. You can make 3 queries per day."
       \/ e = HTTPException HTTP_500_INTERNAL_SERVER_ERROR "Error checking query limit")
      /\ users (snd (check_daily_limit uid w)) = users w
  end.
Proof.
  destruct (check_daily_limit uid w) as [res w'] eqn:E. cbn [fst snd].
  unfold check_daily_limit, try_except, bind, data0, raise, ret, utcnow,
    logger_error in E.
  destruct (select_eq_cases uid w) as [R [U C]].
  destruct (select_eq uid w) as [r w1]. simpl in R, U, C.
  destruct R as [-> | ->].
  2: { simpl in E. apply pair_equal_spec in E as [<- <-]. simpl. split; [now right | exact U]. }
  unfold stored, fresh_day. rewrite <- C.
  destruct (filter (matches uid) (users w)) as [|u rest].
  { simpl in E. apply pair_equal_spec in E as [<- <-]. simpl. now split; [right|]. }
  simpl hd_error. cbv beta iota in E.
  destruct (match last_query_date u with
            | Some d => negb (date d =? date (clock w1))
            | None => true
            end) eqn:F.
  - pose proof (reset_never_raises uid w1) as N.
    destruct (reset_daily_queries uid w1) as [rr w2]. simpl in N. subst rr.
    apply pair_equal_spec in E as [<- <-]. split; [lia|]. exists u. now rewrite F.
  - destruct (Z.geb_spec (queries_used_today u) 3) as [G|G].
    + apply pair_equal_spec in E as [<- <-]. now split; [left|].
    + apply pair_equal_spec in E as [<- <-]. split; [lia|]. exists u. now rewrite F.
Qed.

(** Whatever the outcome of the external calls, [check_daily_limit] either
    grants at least one query (3 on a fresh day, otherwise
    [3 - queries_used_today] of the row it read), or raises the 429 or the
    500 [HTTPException] and then has written nothing. *)
Theorem check_daily_limit_outcomes uid w :
  match fst (check_daily_limit uid w) with
  | Ok r =>
      1 <= r
      /\ exists u, stored uid w = Some u
                   /\ r = if fresh_day u (clock w) then 3 else 3 - queries_used_today u
  | Raise e =>
      (e = HTTPException HTTP_429_TOO_MANY_REQUESTS
             "Daily query limit reached. You can make 3 queries per day."
       \/ e = HTTPException HTTP_500_INTERNAL_SERVER_ERROR "Error checking query limit")
      /\ users (snd (check_daily_limit uid w)) = users w
  end.
Proof. exact (check_outcomes uid w). Qed.

(** ** [/chat]: what can come out of it *)

Lemma run_agent_cases message w :
  run_agent message w = (Ok tt, emit (AgentRun message) (snd (external "AgentError" w)))
  \/ run_agent message w
     = (Raise (Exception "AgentError"), snd (external "AgentError" w)).
Proof.
  unfold run_agent, bind, external. destruct (faults w) as [|[] fs]; simpl; auto.
Qed.

(** [chat_with_agent] as a function of what the check, the increment and the
    agent did. *)
Lemma chat_unfold message current_user w :
  let uid := sub current_user in
  chat_with_agent message current_user w
  = match check_daily_limit uid w with
    | (Raise e, w1) => (Raise e, w1)
    | (Ok r, w1) =>
        let w2 := emit (LogInfo ("User " ++ uid ++ " sent message: "
                                 ++ substring 0 50 message ++ "...")) w1 in
        let w3 := snd (increment_query_count uid w2) in
        match run_agent message w3 with
        | (Ok _, w4) =>
            (Ok (mkChatResponse
                   "Stock recommendation analysis completed. Check the logs for detailed output."
                   (clock w4) uid (clock w4) (r - 1)), w4)
        | (Raise e, w4) =>
            (Raise (HTTPException HTTP_500_INTERNAL_SERVER_ERROR
                      "An error occurred while processing your request"),
             emit (LogError "Error processing chat request" e) w4)
        end
    end.
Proof.
  intros uid. unfold chat_with_agent, try_except, bind. fold uid.
  pose proof (check_outcomes uid w) as O.
  destruct (check_daily_limit uid w) as [[r|e] w1]; simpl in O.
  - unfold logger_info at 1. cbv beta iota.
    pose proof (increment_never_raises uid
                  (emit (LogInfo ("User " ++ uid ++ " sent message: "
                                  ++ substring 0 50 message ++ "...")) w1)) as N.
    destruct (increment_query_count uid _) as [ri w3]. simpl in N. subst ri.
    cbv beta iota zeta. simpl snd.
    destruct (run_agent_cases message w3) as [-> | ->]; reflexivity.
  - destruct O as [[-> | ->] _]; reflexivity.
Qed.

(** Whatever the outcome of the external calls, a [/chat] request that the
    check refuses (429, or 500 when the row cannot be read) fails closed:
    it raises what the check raised, writes nothing and does not invoke the
    agent. *)
Theorem chat_fails_closed message current_user w e :
  fst (check_daily_limit (sub current_user) w) = Raise e ->
  fst (chat_with_agent message current_user w) = Raise e
  /\ users (snd (chat_with_agent message current_user w)) = users w
  /\ agent_runs (trace (snd (chat_with_agent message current_user w)))
     = agent_runs (trace w).
Proof.
  intros E. rewrite chat_unfold.
  pose proof (check_outcomes (sub current_user) w) as O.
  pose proof (quiet_check (sub current_user) w) as Q. unfold quiet_rel in Q.
  destruct (check_daily_limit (sub current_user) w) as [[r|e'] w1];
    simpl in *; [discriminate|].
  injection E as ->. destruct O as [_ U]. now repeat split.
Qed.

Lemma chat_fails_closed_witness :
  fst (chat_with_agent "buy?" Sample.session
         (Sample.world 3 (Some Sample.noon) (Sample.noon + 60) []))
  = Raise (HTTPException 429 "Daily query limit reached. You can make 3 queries per day.")
  /\ trace (snd (chat_with_agent "buy?" Sample.session
                   (Sample.world 3 (Some Sample.noon) (Sample.noon + 60) [true])))
     = [LogError "Error checking daily limit" (Exception "APIError")].
Proof.
  split.
  - apply (chat_fails_closed "buy?" Sample.session
             (Sample.world 3 (Some Sample.noon) (Sample.noon + 60) [])).
    reflexivity.
  - reflexivity.
Defined.


(** ** [/chat]: the charge and what is reported *)

(** On a healthy world, a [/chat] request that succeeds leaves the caller's
    row with today's instant as [last_query_date], its identity fields
    untouched, and a counter that adds up with the reported
    [queries_remaining] to [DAILY_LIMIT]. *)
Theorem chat_accounting message current_user w u resp w' :
  healthy w ->
  stored (sub current_user) w = Some u ->
  chat_with_agent message current_user w = (Ok resp, w') ->
  exists u',
    stored (sub current_user) w' = Some u'
    /\ queries_used_today u' + cr_queries_remaining resp = DAILY_LIMIT
    /\ last_query_date u' = Some (clock w)
    /\ identity u' = identity u.
Proof.
  intros H S E.
  assert (C : fresh_day u (clock w) = true \/ queries_used_today u < 3).
  { destruct (fresh_day u (clock w)) eqn:F; [now left|right].
    destruct (Z_lt_ge_dec (queries_used_today u) 3) as [L|G]; [exact L|].
    rewrite (chat_denied message _ _ _ H S F G) in E. discriminate. }
  destruct (chat_granted message _ _ _ H S C) as [resp' [w1 [E1 [R [_ S']]]]].
  rewrite E in E1. injection E1 as <- <-.
  eexists. split; [exact S'|]. rewrite R. unfold DAILY_LIMIT.
  split; [|split; reflexivity].
  cbn [queries_used_today set_usage]. lia.
Qed.

Lemma chat_accounting_witness :
  exists u',
    stored "g-1" (snd (chat_with_agent "buy?" Sample.session
                         (Sample.world 1 (Some Sample.noon) (Sample.noon + 60) [])))
    = Some u'
    /\ queries_used_today u' = 2.
Proof.
  destruct (chat_with_agent "buy?" Sample.session
              (Sample.world 1 (Some Sample.noon) (Sample.noon + 60) []))
    as [[resp|e] w'] eqn:E; [|vm_compute in E; discriminate].
  destruct (chat_accounting "buy?" Sample.session
              (Sample.world 1 (Some Sample.noon) (Sample.noon + 60) [])
              (Sample.alice 1 (Some Sample.noon)) resp w')
    as [u' [S [A _]]]; [reflexivity | reflexivity | exact E |].
  exists u'. split; [exact S|].
  assert (R : cr_queries_remaining resp = 1).
  { vm_compute in E. injection E as <- _. reflexivity. }
  rewrite R in A. unfold DAILY_LIMIT in A. lia.
Defined.

(** ** External calls that are known to succeed or to fail *)

Lemma external_false cls w fs :
  faults w = false :: fs -> external cls w = (Ok tt, set_faults fs w).
Proof. unfold external. now intros ->. Qed.

Lemma select_eq_false uid w fs :
  faults w = false :: fs ->
  select_eq uid w = (Ok (filter (matches uid) (users w)), set_faults fs w).
Proof. intros E. unfold select_eq, bind. now rewrite (external_false _ _ _ E). Qed.

Lemma update_eq_false uid q d w fs :
  faults w = false :: fs ->
  update_eq uid q d w
  = (Ok tt, set_users (update_rows uid q d (users w)) (set_faults fs w)).
Proof. intros E. unfold update_eq, bind. now rewrite (external_false _ _ _ E). Qed.

Lemma run_agent_fault message w fs :
  faults w = true :: fs ->
  run_agent message w = (Raise (Exception "AgentError"), set_faults fs w).
Proof. intros E. unfold run_agent, bind, external. now rewrite E. Qed.

Lemma increment_flags uid w u fs :
  faults w = false :: false :: fs -> stored uid w = Some u ->
  increment_query_count uid w
  = (Ok tt, set_users (update_rows uid (queries_used_today u + 1)
                         (Some (clock w)) (users w)) (set_faults fs w)).
Proof.
  intros E S. destruct (stored_data _ _ _ S) as [rest D].
  unfold increment_query_count, try_except, bind.
  rewrite (select_eq_false _ _ _ E), D. cbn [data0 ret]. unfold utcnow.
  now rewrite (update_eq_false uid _ _ (set_faults (false :: fs) w) fs eq_refl).
Qed.

Lemma stored_first_update uid q d w0 w u :
  stored uid w = Some u ->
  users w0 = update_rows uid q d (users w) ->
  stored uid w0 = Some (set_usage q d u).
Proof.
  intros S E. unfold stored in *. rewrite E, filter_update_rows.
  destruct (filter (matches uid) (users w)); [discriminate|].
  now injection S as ->.
Qed.

(** When the check grants and the increment is stored but the agent then
    raises, the request fails with status 500 and the caller's row keeps
    the incremented counter: the charge is not refunded. *)
Theorem chat_agent_failure_keeps_charge message current_user w u fs :
  stored (sub current_user) w = Some u ->
  fresh_day u (clock w) = false ->
  queries_used_today u < 3 ->
  faults w = false :: false :: false :: true :: fs ->
  fst (chat_with_agent message current_user w)
  = Raise (HTTPException HTTP_500_INTERNAL_SERVER_ERROR
             "An error occurred while processing your request")
  /\ stored (sub current_user) (snd (chat_with_agent message current_user w))
     = Some (set_usage (queries_used_today u + 1) (Some (clock w)) u).
Proof.
  intros S F L E. destruct (stored_data _ _ _ S) as [rest D].
  rewrite chat_unfold. cbv zeta.
  assert (C : check_daily_limit (sub current_user) w
              = (Ok (3 - queries_used_today u),
                 set_faults (false :: false :: true :: fs) w)).
  { unfold check_daily_limit, try_except, bind.
    rewrite (select_eq_false _ _ _ E), D. cbn [data0 ret]. unfold utcnow.
    cbn [clock set_faults]. unfold fresh_day in F. rewrite F.
    now destruct (Z.geb_spec (queries_used_today u) 3); [lia|]. }
  rewrite C.
  match goal with |- context [increment_query_count _ ?w2] =>
    rewrite (increment_flags _ w2 u (true :: fs) eq_refl S)
  end.
  cbn [snd].
  match goal with |- context [run_agent _ ?w3] =>
    rewrite (run_agent_fault message w3 fs eq_refl)
  end.
  split; [reflexivity|]. cbn [snd].
  eapply stored_first_update; [exact S | reflexivity].
Qed.

Lemma chat_agent_failure_keeps_charge_witness :
  stored "g-1"
    (snd (chat_with_agent "buy?" Sample.session
            (Sample.world 1 (Some Sample.noon) (Sample.noon + 60)
               [false; false; false; true])))
  = Some (Sample.alice 2 (Some (Sample.noon + 60))).
Proof.
  apply (chat_agent_failure_keeps_charge "buy?" Sample.session
           (Sample.world 1 (Some Sample.noon) (Sample.noon + 60)
              [false; false; false; true])
           (Sample.alice 1 (Some Sample.noon)) []).
  - reflexivity.
  - reflexivity.
  - reflexivity.
  - reflexivity.
Defined.

(** ** [/auth/profile] *)

(** [get_user_profile] turns every failure into the 500 "Error retrieving
    user profile", the quota refusal included: for a stored user who has
    reached the limit today, on a healthy directory, the profile read fails
    with 500 (not 429), logs the refusal and writes nothing. *)
Theorem profile_at_limit_is_500 current_user w u :
  healthy w ->
  stored (sub current_user) w = Some u ->
  fresh_day u (clock w) = false ->
  queries_used_today u >= 3 ->
  get_user_profile current_user w
  = (Raise (HTTPException HTTP_500_INTERNAL_SERVER_ERROR "Error retrieving user profile"),
     emit (LogError "Error getting user profile"
             (HTTPException HTTP_429_TOO_MANY_REQUESTS
                "Daily query limit reached. You can make 3 queries per day.")) w).
Proof.
  intros H S F G. destruct (stored_data _ _ _ S) as [rest D].
  unfold get_user_profile, try_except, bind.
  rewrite (select_eq_healthy _ _ H), D. cbn [data0 ret].
  rewrite (check_same_day _ _ _ H S F).
  now destruct (Z.geb_spec (queries_used_today u) 3); [|lia].
Qed.

Lemma profile_at_limit_is_500_witness :
  fst (get_user_profile Sample.session
         (Sample.world 3 (Some Sample.noon) (Sample.noon + 60) []))
  = Raise (HTTPException 500 "Error retrieving user profile").
Proof.
  rewrite (profile_at_limit_is_500 Sample.session
             (Sample.world 3 (Some Sample.noon) (Sample.noon + 60) [])
             (Sample.alice 3 (Some Sample.noon)));
    [reflexivity | reflexivity | reflexivity | reflexivity | vm_compute; discriminate].
Defined.

(** For a stored user below the limit whose [last_query_date] is today, on a
    healthy directory, the profile read changes nothing and reports the
    stored counter together with [3 - queries_used_today], so that the two
    add up to [DAILY_LIMIT]. *)
Theorem profile_same_day_consistent current_user w u :
  healthy w ->
  stored (sub current_user) w = Some u ->
  fresh_day u (clock w) = false ->
  queries_used_today u < 3 ->
  exists profile,
    get_user_profile current_user w = (Ok profile, w)
    /\ up_queries_used_today profile = queries_used_today u
    /\ up_queries_used_today profile + up_queries_remaining profile = DAILY_LIMIT
    /\ up_last_query_date profile = last_query_date u
    /\ (up_user_id profile, up_email profile, up_name profile)
       = (user_id u, email u, name u).
Proof.
  intros H S F L. destruct (stored_data _ _ _ S) as [rest D].
  unfold get_user_profile, try_except, bind.
  rewrite (select_eq_healthy _ _ H), D. cbn [data0 ret].
  rewrite (check_same_day _ _ _ H S F).
  destruct (Z.geb_spec (queries_used_today u) 3); [lia|].
  eexists. split; [reflexivity|].
  cbn [up_queries_used_today up_queries_remaining up_last_query_date
       up_user_id up_email up_name].
  unfold DAILY_LIMIT. repeat split. lia.
Qed.

Lemma profile_same_day_consistent_witness :
  exists profile,
    get_user_profile Sample.session
      (Sample.world 1 (Some Sample.noon) (Sample.noon + 60) [])
    = (Ok profile, Sample.world 1 (Some Sample.noon) (Sample.noon + 60) [])
    /\ up_queries_used_today profile = 1.
Proof.
  destruct (profile_same_day_consistent Sample.session
              (Sample.world 1 (Some Sample.noon) (Sample.noon + 60) [])
              (Sample.alice 1 (Some Sample.noon)))
    as [p [E [U _]]]; [reflexivity | reflexivity | reflexivity | reflexivity |].
  exists p. split; [exact E | exact U].
Defined.

(** ** A check is a peek *)

(** On a healthy directory, for a stored user, checking twice at the same
    instant is the same as checking once: the second check gives the same
    answer and leaves the world as the first one left it; and a granted
    answer plus the stored counter after the check is [DAILY_LIMIT]. *)
Theorem check_daily_limit_idempotent uid w u :
  healthy w ->
  stored uid w = Some u ->
  check_daily_limit uid (snd (check_daily_limit uid w)) = check_daily_limit uid w
  /\ forall r, fst (check_daily_limit uid w) = Ok r ->
       exists u', stored uid (snd (check_daily_limit uid w)) = Some u'
                  /\ queries_used_today u' + r = DAILY_LIMIT.
Proof.
  intros H S. destruct (fresh_day u (clock w)) eqn:F.
  - rewrite (check_fresh _ _ _ H S F). cbn [fst snd].
    set (w1 := set_users (update_rows uid 0 (Some (clock w)) (users w)) w).
    assert (S1 : stored uid w1 = Some (set_usage 0 (Some (clock w)) u))
      by (eapply stored_first_update; [exact S | reflexivity]).
    split.
    + assert (F1 : fresh_day (set_usage 0 (Some (clock w)) u) (clock w1) = false).
      { unfold fresh_day. cbn. now rewrite Z.eqb_refl. }
      rewrite (check_same_day uid w1 _ H S1 F1). reflexivity.
    + intros r [= <-]. eexists. split; [exact S1|]. reflexivity.
  - rewrite (check_same_day _ _ _ H S F). cbn [fst snd].
    split; [exact (check_same_day _ _ _ H S F)|].
    intros r. destruct (Z.geb_spec (queries_used_today u) 3); [discriminate|].
    intros E. replace r with (3 - queries_used_today u) by congruence.
    exists u. split; [exact S|]. unfold DAILY_LIMIT. lia.
Qed.

Lemma check_daily_limit_idempotent_witness :
  check_daily_limit "g-1"
    (snd (check_daily_limit "g-1" (Sample.world 3 (Some Sample.noon) Sample.next_day [])))
  = check_daily_limit "g-1" (Sample.world 3 (Some Sample.noon) Sample.next_day []).
Proof.
  apply (check_daily_limit_idempotent "g-1"
           (Sample.world 3 (Some Sample.noon) Sample.next_day [])
           (Sample.alice 3 (Some Sample.noon))); reflexivity.
Defined.

(** ** Get-or-create, whatever fails *)

Lemma insert_cases new_user w :
  (fst (insert new_user w) = Ok [new_user]
   /\ users (snd (insert new_user w)) = (users w ++ [new_user])%list)
  \/ (fst (insert new_user w) = Raise (Exception "APIError")
      /\ users (snd (insert new_user w)) = users w).
Proof.
  unfold insert, bind, external. destruct (faults w) as [|[] fs]; simpl; auto.
Qed.

Lemma get_or_create_outcomes user_info w :
  match fst (get_or_create_user user_info w) with
  | Ok u =>
      user_id u = ui_user_id user_info
      /\ In u (users (snd (get_or_create_user user_info w)))
      /\ (users (snd (get_or_create_user user_info w)) = users w
          \/ (stored (ui_user_id user_info) w = None
              /\ queries_used_today u = 0 /\ last_query_date u = None
              /\ users (snd (get_or_create_user user_info w))
                 = (users w ++ [u])%list))
  | Raise e =>
      e = HTTPException HTTP_500_INTERNAL_SERVER_ERROR "Database error"
      /\ users (snd (get_or_create_user user_info w)) = users w
  end.
Proof.
  destruct (get_or_create_user user_info w) as [res w'] eqn:E. cbn [fst snd].
  unfold get_or_create_user, try_except, bind at 1, raise, logger_error in E.
  destruct (select_eq_cases (ui_user_id user_info) w) as [R [U C]].
  destruct (select_eq (ui_user_id user_info) w) as [r w1]. cbn [fst snd] in R, U, C.
  destruct R as [-> | ->].
  2: { unfold bind in E. apply pair_equal_spec in E as [E1 E2]; subst res w'. now split. }
  unfold stored.
  destruct (filter (matches (ui_user_id user_info)) (users w)) as [|u rest] eqn:D.
  - unfold bind, utcnow in E.
    match type of E with context [insert ?nu w1] =>
      destruct (insert_cases nu w1) as [[I1 I2] | [I1 I2]];
      destruct (insert nu w1) as [ri w2]; cbn [fst snd] in I1, I2; subst ri
    end.
    + cbn in E. apply pair_equal_spec in E as [E1 E2]; subst res w'. cbn [user_id].
      split; [reflexivity|]. rewrite I2, U. split; [apply in_or_app; right; now left|].
      right. now repeat split.
    + cbn in E. apply pair_equal_spec in E as [E1 E2]; subst res w'. split; [reflexivity|].
      cbn [users emit]. now rewrite I2.
  - unfold ret in E. apply pair_equal_spec in E as [E1 E2]; subst res w'.
    assert (I : In u (filter (matches (ui_user_id user_info)) (users w)))
      by (rewrite D; now left).
    apply filter_In in I as [I M]. unfold matches in M. apply String.eqb_eq in M.
    rewrite U. repeat split; auto.
Qed.

(** Whatever the outcome of the external calls, [get_or_create_user] either
    returns a row of the requested subject that is in the table afterwards
    (an existing row with the table untouched, or a row it appended with
    [queries_used_today = 0] and no [last_query_date] when the subject had
    none), or raises the 500 "Database error" and leaves the table as it
    was. *)
Theorem get_or_create_user_outcomes user_info w :
  match fst (get_or_create_user user_info w) with
  | Ok u =>
      user_id u = ui_user_id user_info
      /\ In u (users (snd (get_or_create_user user_info w)))
      /\ (users (snd (get_or_create_user user_info w)) = users w
          \/ (stored (ui_user_id user_info) w = None
              /\ queries_used_today u = 0 /\ last_query_date u = None
              /\ users (snd (get_or_create_user user_info w))
                 = (users w ++ [u])%list))
  | Raise e =>
      e = HTTPException HTTP_500_INTERNAL_SERVER_ERROR "Database error"
      /\ users (snd (get_or_create_user user_info w)) = users w
  end.
Proof. exact (get_or_create_outcomes user_info w). Qed.

(** On a healthy directory, a first [get_or_create_user] for an unseen
    subject followed by any number of further calls creates exactly one
    row: every later call returns the row created by the first and leaves
    the table as it is. *)
Theorem get_or_create_user_idempotent user_info w n :
  healthy w -> stored (ui_user_id user_info) w = None ->
  let new_user := mkUser (ui_user_id user_info) (ui_email user_info)
                    (ui_name user_info) 0 None (clock w) in
  let w1 := snd (get_or_create_user user_info w) in
  Nat.iter n (fun w' => snd (get_or_create_user user_info w')) w1 = w1
  /\ get_or_create_user user_info w1 = (Ok new_user, w1)
  /\ filter (matches (ui_user_id user_info)) (users w1) = [new_user].
Proof. exact (get_or_create_user_repeated user_info w n). Qed.

Lemma get_or_create_user_idempotent_witness :
  filter (matches "g-7")
    (users (snd (get_or_create_user (mkUserInfo "g-7" "eve@example.com" "Eve" "")
                   (Sample.world 1 (Some Sample.noon) Sample.noon []))))
  = [mkUser "g-7" "eve@example.com" "Eve" 0 None Sample.noon].
Proof.
  apply (get_or_create_user_idempotent (mkUserInfo "g-7" "eve@example.com" "Eve" "")
           (Sample.world 1 (Some Sample.noon) Sample.noon []) 2); reflexivity.
Defined.

(** ** [/auth/google] *)

Lemma verify_google_token_accepts client verifier id_token_str w ui :
  asserts verifier client id_token_str (clock w) ui ->
  verify_google_token client verifier id_token_str w = (Ok ui, w).
Proof.
  intros [idinfo [i [E [I [T [S [M [N P]]]]]]]].
  unfold verify_google_token, try_except, bind, utcnow.
  rewrite E, I. cbn [getitem ret]. rewrite T. cbn [negb]. rewrite S, M.
  cbn [getitem ret]. destruct ui as [s m n p]. cbn in N, P. now subst.
Qed.

Lemma verify_google_token_cases client verifier id_token_str w :
  (exists ui, verify_google_token client verifier id_token_str w = (Ok ui, w))
  \/ (exists e,
        verify_google_token client verifier id_token_str w
        = (Raise (HTTPException HTTP_401_UNAUTHORIZED "Invalid Google token"),
           emit (LogError "Google token verification failed" e) w)).
Proof.
  unfold verify_google_token, try_except, bind, utcnow.
  destruct (verifier id_token_str client (clock w)) as [idinfo|e]; [|right; now eexists].
  destruct (iss idinfo) as [i|]; [|right; now eexists]. cbn [getitem ret].
  destruct (trusted_issuer i); cbn [negb]; [|right; now eexists].
  destruct (id_sub idinfo) as [s|]; [|right; now eexists]. cbn [getitem ret].
  destruct (id_email idinfo) as [m|]; [|right; now eexists]. cbn [getitem ret].
  left. now eexists.
Qed.

(** [google_auth] after an accepted assertion, as a function of what the
    directory and the check did. *)
Lemma google_auth_unfold secret client hs verifier id_token_str w ui :
  verify_google_token client verifier id_token_str w = (Ok ui, w) ->
  google_auth secret client hs verifier id_token_str w
  = match get_or_create_user ui w with
    | (Raise e, w1) => (Raise e, w1)
    | (Ok _, w1) =>
        match check_daily_limit (ui_user_id ui) w1 with
        | (Ok r, w2) =>
            (Ok (mkAuthResponse
                   (jwt_encode hs
                      (mkPayload (ui_user_id ui) (ui_email ui) (clock w1 + 86400))
                      secret)
                   "bearer" (ui_user_id ui) (ui_email ui) (ui_name ui) r), w2)
        | (Raise e, w2) => (Raise e, w2)
        end
    end.
Proof.
  intros V.
  unfold google_auth, create_jwt_token, try_except, bind, utcnow, ret, timedelta_days.
  rewrite V. cbv beta iota.
  pose proof (get_or_create_outcomes ui w) as G.
  destruct (get_or_create_user ui w) as [[u|e] w1]; cbn [fst snd] in G.
  - cbv beta iota. pose proof (check_outcomes (ui_user_id ui) w1) as O.
    destruct (check_daily_limit (ui_user_id ui) w1) as [[r|e] w2]; cbn [fst snd] in O.
    + reflexivity.
    + destruct O as [[-> | ->] _]; reflexivity.
  - destruct G as [-> _]. reflexivity.
Qed.

(** On a healthy directory, signing in with an accepted assertion is
    refused with the 429 "Daily query limit reached" when the stored user
    has used up today's quota; nothing is written. *)
Theorem google_auth_at_limit_is_429 secret client hs verifier id_token_str w ui u :
  healthy w ->
  asserts verifier client id_token_str (clock w) ui ->
  stored (ui_user_id ui) w = Some u ->
  fresh_day u (clock w) = false ->
  queries_used_today u >= 3 ->
  google_auth secret client hs verifier id_token_str w
  = (Raise (HTTPException HTTP_429_TOO_MANY_REQUESTS
              "Daily query limit reached. You can make 3 queries per day."), w).
Proof.
  intros H A S F G.
  rewrite (google_auth_unfold _ _ _ _ _ _ _ (verify_google_token_accepts _ _ _ _ _ A)).
  rewrite (get_or_create_user_existing _ _ _ H S).
  rewrite (check_same_day _ _ _ H S F).
  now destruct (Z.geb_spec (queries_used_today u) 3); [|lia].
Qed.

Lemma google_auth_at_limit_is_429_witness :
  fst (google_auth "secret" "client" Sample.tag Sample.verifier "good"
         (Sample.world 3 (Some Sample.noon) (Sample.noon + 60) []))
  = Raise (HTTPException 429 "Daily query limit reached. You can make 3 queries per day.").
Proof.
  rewrite (google_auth_at_limit_is_429 "secret" "client" Sample.tag Sample.verifier "good"
             (Sample.world 3 (Some Sample.noon) (Sample.noon + 60) [])
             (mkUserInfo "g-1" "alice@example.com" "Alice" "")
             (Sample.alice 3 (Some Sample.noon))).
  - reflexivity.
  - reflexivity.
  - eexists _, _. repeat split; reflexivity.
  - reflexivity.
  - reflexivity.
  - vm_compute. discriminate.
Defined.

(** An assertion that the verifier library accepts but that lacks the
    issuer, the subject or the email claim is rejected like a forged one:
    [google_auth] raises the 401 and the table is what it was. *)
Theorem google_auth_incomplete_assertion secret client hs verifier id_token_str w idinfo :
  verifier id_token_str client (clock w) = Ok idinfo ->
  iss idinfo = None \/ id_sub idinfo = None \/ id_email idinfo = None ->
  fst (google_auth secret client hs verifier id_token_str w)
  = Raise (HTTPException HTTP_401_UNAUTHORIZED "Invalid Google token")
  /\ users (snd (google_auth secret client hs verifier id_token_str w)) = users w.
Proof.
  intros E M.
  assert (V : exists e,
             verify_google_token client verifier id_token_str w
             = (Raise (HTTPException HTTP_401_UNAUTHORIZED "Invalid Google token"),
                emit (LogError "Google token verification failed" e) w)).
  { unfold verify_google_token, try_except, bind, utcnow. rewrite E.
    destruct (iss idinfo) as [i|]; [|now eexists]. cbn [getitem ret].
    destruct (trusted_issuer i); cbn [negb]; [|now eexists].
    destruct (id_sub idinfo) as [s|]; [|now eexists]. cbn [getitem ret].
    destruct (id_email idinfo) as [m|]; [|now eexists].
    destruct M as [M | [M | M]]; discriminate. }
  destruct V as [e V]. unfold google_auth, try_except, bind. rewrite V. now split.
Qed.

Lemma google_auth_incomplete_assertion_witness :
  fst (google_auth "secret" "client" Sample.tag
         (fun _ _ _ => Ok (mkIdInfo (Some "accounts.google.com") (Some "g-5") None None None))
         "no-email" (Sample.world 0 None Sample.noon []))
  = Raise (HTTPException 401 "Invalid Google token").
Proof.
  apply (google_auth_incomplete_assertion "secret" "client" Sample.tag
           (fun _ _ _ => Ok (mkIdInfo (Some "accounts.google.com") (Some "g-5")
                               None None None))
           "no-email" (Sample.world 0 None Sample.noon [])
           (mkIdInfo (Some "accounts.google.com") (Some "g-5") None None None)).
  - reflexivity.
  - right. right. reflexivity.
Defined.

Lemma update_rows_absent uid q d us :
  filter (matches uid) us = [] -> update_rows uid q d us = us.
Proof. intros E. exact (usage_edit_absent _ _ _ (usage_edit_update_rows uid q d us) E). Qed.

Lemma stored_none_filter uid w :
  stored uid w = None -> filter (matches uid) (users w) = [].
Proof. unfold stored. now destruct (filter (matches uid) (users w)). Qed.

(** On a healthy directory, the first sign-in of an unseen subject with an
    accepted assertion appends one row for it, with no query used and
    (because the check that follows stamps it) today's instant as
    [last_query_date]; it reports the full daily quota, and the credential
    it returns validates back to the subject and email of the assertion. *)
Theorem google_auth_new_user secret client hs verifier id_token_str w ui :
  healthy w ->
  asserts verifier client id_token_str (clock w) ui ->
  stored (ui_user_id ui) w = None ->
  exists resp w',
    google_auth secret client hs verifier id_token_str w = (Ok resp, w')
    /\ ar_queries_remaining resp = DAILY_LIMIT
    /\ (ar_user_id resp, ar_email resp, ar_name resp)
       = (ui_user_id ui, ui_email ui, ui_name ui)
    /\ users w' = (users w ++ [mkUser (ui_user_id ui) (ui_email ui) (ui_name ui)
                                 0 (Some (clock w)) (clock w)])%list
    /\ verify_jwt_token secret hs (access_token resp) w'
       = (Ok (mkPayload (ui_user_id ui) (ui_email ui) (clock w + 86400)), w').
Proof.
  intros H A S.
  rewrite (google_auth_unfold _ _ _ _ _ _ _ (verify_google_token_accepts _ _ _ _ _ A)).
  rewrite (get_or_create_user_new _ _ H S).
  set (new_user := mkUser (ui_user_id ui) (ui_email ui) (ui_name ui) 0 None (clock w)).
  set (w1 := set_users (users w ++ [new_user]) w).
  assert (F1 : filter (matches (ui_user_id ui)) (users w1) = [new_user]).
  { unfold w1. cbn [users set_users]. rewrite filter_app, (stored_none_filter _ _ S).
    cbn. unfold matches. cbn. now rewrite String.eqb_refl. }
  assert (S1 : stored (ui_user_id ui) w1 = Some new_user) by (unfold stored; now rewrite F1).
  rewrite (check_fresh _ w1 new_user H S1 eq_refl).
  eexists _, _. split; [reflexivity|].
  cbn [ar_queries_remaining ar_user_id ar_email ar_name access_token users set_users].
  split; [reflexivity|]. split; [reflexivity|]. split.
  - unfold w1. cbn [users set_users clock]. unfold update_rows. rewrite map_app.
    fold (update_rows (ui_user_id ui) 0 (Some (clock w)) (users w)).
    rewrite (update_rows_absent _ _ _ _ (stored_none_filter _ _ S)).
    cbn. unfold matches. cbn. now rewrite String.eqb_refl.
  - unfold verify_jwt_token, try_except, bind, jwt_encode, jwt_decode.
    rewrite String.eqb_refl. cbn [negb]. unfold utcnow, bind.
    cbn [clock set_users exp w1].
    now destruct (Z.ltb_spec (clock w) (clock w + 86400)); [|lia].
Qed.

Lemma google_auth_new_user_witness :
  exists resp w',
    google_auth "secret" "client" Sample.tag Sample.verifier "good"
      (mkWorld [Sample.bob] Sample.noon [] [])
    = (Ok resp, w')
    /\ ar_queries_remaining resp = 3
    /\ users w' = [Sample.bob;
                   mkUser "g-1" "alice@example.com" "Alice" 0 (Some Sample.noon) Sample.noon].
Proof.
  destruct (google_auth_new_user "secret" "client" Sample.tag Sample.verifier "good"
              (mkWorld [Sample.bob] Sample.noon [] [])
              (mkUserInfo "g-1" "alice@example.com" "Alice" ""))
    as [resp [w' [E [R [_ [U _]]]]]].
  - reflexivity.
  - eexists _, _. repeat split; reflexivity.
  - reflexivity.
  - exists resp, w'. repeat split; assumption.
Defined.

(** On a healthy directory, signing in again with an accepted assertion for
    a stored user who still has quota answers with the email and name of
    the assertion and the current allowance, consumes nothing (the stored
    counter and the reported [queries_remaining] add up to [DAILY_LIMIT]),
    and leaves the identity fields of the stored row as they were: a changed
    email or name is not written back. *)
Theorem google_auth_existing_user secret client hs verifier id_token_str w ui u :
  healthy w ->
  asserts verifier client id_token_str (clock w) ui ->
  stored (ui_user_id ui) w = Some u ->
  fresh_day u (clock w) = true \/ queries_used_today u < 3 ->
  exists resp w' u',
    google_auth secret client hs verifier id_token_str w = (Ok resp, w')
    /\ (ar_email resp, ar_name resp) = (ui_email ui, ui_name ui)
    /\ ar_queries_remaining resp = allowance u (clock w)
    /\ stored (ui_user_id ui) w' = Some u'
    /\ identity u' = identity u
    /\ queries_used_today u' + ar_queries_remaining resp = DAILY_LIMIT.
Proof.
  intros H A S C.
  rewrite (google_auth_unfold _ _ _ _ _ _ _ (verify_google_token_accepts _ _ _ _ _ A)).
  rewrite (get_or_create_user_existing _ _ _ H S). unfold allowance.
  destruct (fresh_day u (clock w)) eqn:F.
  - rewrite (check_fresh _ _ _ H S F).
    eexists _, _, (set_usage 0 (Some (clock w)) u). split; [reflexivity|].
    cbn [ar_email ar_name ar_queries_remaining]. repeat split.
    eapply stored_first_update; [exact S | reflexivity].
  - destruct C as [C|C]; [discriminate|].
    rewrite (check_same_day _ _ _ H S F).
    destruct (Z.geb_spec (queries_used_today u) 3); [lia|].
    eexists _, _, u. split; [reflexivity|].
    cbn [ar_email ar_name ar_queries_remaining]. unfold DAILY_LIMIT.
    repeat split; [exact S | lia].
Qed.

Lemma google_auth_existing_user_witness :
  exists resp w' u',
    google_auth "secret" "client" Sample.tag
      (fun _ _ _ => Ok (mkIdInfo (Some "https://accounts.google.com") (Some "g-1")
                          (Some "alice@new.example") None None))
      "moved" (Sample.world 1 (Some Sample.noon) (Sample.noon + 60) [])
    = (Ok resp, w')
    /\ ar_email resp = "alice@new.example"
    /\ stored "g-1" w' = Some u'
    /\ email u' = "alice@example.com".
Proof.
  destruct (google_auth_existing_user "secret" "client" Sample.tag
              (fun _ _ _ => Ok (mkIdInfo (Some "https://accounts.google.com") (Some "g-1")
                                  (Some "alice@new.example") None None))
              "moved" (Sample.world 1 (Some Sample.noon) (Sample.noon + 60) [])
              (mkUserInfo "g-1" "alice@new.example" "" "")
              (Sample.alice 1 (Some Sample.noon)))
    as [resp [w' [u' [E [M [_ [S [I _]]]]]]]].
  - reflexivity.
  - eexists _, _. repeat split; reflexivity.
  - reflexivity.
  - right. reflexivity.
  - exists resp, w', u'. repeat split; try assumption.
    + now injection M.
    + unfold identity in I. now injection I.
Defined.

(** ** An invariant of every reachable world *)

Lemma usage_edit_user_ids uid us us' :
  usage_edit uid us us' -> map user_id us' = map user_id us.
Proof.
  intros E. apply usage_edit_identity in E.
  assert (P : forall l, map user_id l = map (fun i => fst (fst (fst i))) (map identity l)).
  { intros l. rewrite map_map. reflexivity. }
  now rewrite (P us), (P us'), E.
Qed.

Lemma NoDup_snoc {A} (l : list A) x : NoDup l -> ~ In x l -> NoDup (l ++ [x]).
Proof.
  induction 1 as [|a l Na _ IH]; intros N; simpl.
  - constructor; [intros []|constructor].
  - constructor.
    + intros I. apply in_app_or in I as [I|[->|[]]]; [now apply Na|].
      apply N. now left.
    + apply IH. intros I. apply N. now right.
Qed.

Lemma stored_none_fresh_id uid w :
  stored uid w = None -> ~ In uid (map user_id (users w)).
Proof.
  intros S I. apply in_map_iff in I as [u [E I]].
  assert (F : In u (filter (matches uid) (users w))).
  { apply filter_In. split; [exact I|]. unfold matches. now apply String.eqb_eq. }
  now rewrite (stored_none_filter _ _ S) in F.
Qed.

Lemma well_formed_check uid w :
  well_formed w -> well_formed (snd (check_daily_limit uid w)).
Proof.
  intros [H [Q N]]. destruct (check_step uid w H Q) as [H' [Q' _]].
  repeat split; [exact H' | exact Q'|].
  now rewrite (usage_edit_user_ids _ _ _ (frame_check uid w)).
Qed.

Lemma well_formed_chat message current_user w :
  well_formed w -> well_formed (snd (chat_with_agent message current_user w)).
Proof.
  intros [H [Q N]]. split; [|split].
  - now apply tidy_chat.
  - rewrite chat_unfold. cbv zeta.
    destruct (check_step (sub current_user) w H Q) as [H1 [Q1 G]].
    destruct (check_daily_limit (sub current_user) w) as [[r|e] w1];
      cbn [fst snd] in *; [|exact Q1].
    destruct (G r eq_refl) as [u [S L]].
    match goal with |- context [increment_query_count _ ?w2] =>
      destruct (increment_step (sub current_user) w2 u H1 Q1 S L) as [_ Q3];
      set (w3 := snd (increment_query_count (sub current_user) w2)) in *
    end.
    pose proof (frame_run_agent (sub current_user) message w3) as F.
    unfold frame_rel in F.
    assert (U : users (snd (run_agent message w3)) = users w3).
    { unfold run_agent, bind, external. now destruct (faults w3) as [|[] fs]. }
    destruct (run_agent message w3) as [[[]|e] w4]; cbn [fst snd users emit] in *;
      now rewrite U.
  - now rewrite (usage_edit_user_ids _ _ _ (frame_chat message current_user w)).
Qed.

Lemma well_formed_profile current_user w :
  well_formed w -> well_formed (snd (get_user_profile current_user w)).
Proof.
  intros [H [Q N]]. split; [|split].
  - now apply tidy_profile.
  - destruct (check_step (sub current_user) w H Q) as [_ [Q1 _]].
    unfold get_user_profile, try_except, bind.
    rewrite (select_eq_healthy _ _ H).
    destruct (filter (matches (sub current_user)) (users w)) as [|u rest];
      [exact Q|]. cbn [data0 ret].
    destruct (check_daily_limit (sub current_user) w) as [[r|e] w1];
      cbn [fst snd] in *; exact Q1.
  - now rewrite (usage_edit_user_ids _ _ _ (frame_profile current_user w)).
Qed.

Lemma well_formed_get_or_create user_info w :
  well_formed w -> well_formed (snd (get_or_create_user user_info w)).
Proof.
  intros [H [Q N]]. destruct (stored (ui_user_id user_info) w) as [u|] eqn:S.
  - rewrite (get_or_create_user_existing _ _ _ H S). now repeat split.
  - rewrite (get_or_create_user_new _ _ H S). unfold well_formed.
    cbv zeta. cbn [snd users set_users]. split; [exact H|]. split.
    + apply Forall_app. split; [exact Q|]. constructor; [|constructor].
      unfold in_quota, DAILY_LIMIT. cbn. lia.
    + rewrite map_app. apply NoDup_snoc; [exact N|].
      now apply stored_none_fresh_id.
Qed.

Lemma well_formed_google_auth secret client hs verifier id_token_str w :
  well_formed w ->
  well_formed (snd (google_auth secret client hs verifier id_token_str w)).
Proof.
  intros W.
  destruct (verify_google_token_cases client verifier id_token_str w) as [[ui V] | [e V]].
  - rewrite (google_auth_unfold _ _ _ _ _ _ _ V).
    pose proof (well_formed_get_or_create ui w W) as W1.
    destruct (get_or_create_user ui w) as [[u|e] w1]; cbn [snd] in *; [|exact W1].
    pose proof (well_formed_check (ui_user_id ui) w1 W1) as W2.
    now destruct (check_daily_limit (ui_user_id ui) w1) as [[r|e] w2].
  - unfold google_auth, try_except, bind. rewrite V. exact W.
Qed.

(** Every world reached from an empty table by serving sign-ins, profile
    reads and chat requests one after the other has a healthy directory,
    every counter within [[0, DAILY_LIMIT]] and at most one row per
    subject. *)
Theorem reachable_well_formed w : reachable w -> well_formed w.
Proof.
  induction 1 as [t | secret client hs verifier t tok w _ IH
                  | t current_user w _ IH | t message current_user w _ IH].
  - repeat split; constructor.
  - apply (well_formed_google_auth _ _ _ _ _ (set_clock t w)). exact IH.
  - apply (well_formed_profile _ (set_clock t w)). exact IH.
  - apply (well_formed_chat _ _ (set_clock t w)). exact IH.
Qed.

Lemma reachable_well_formed_witness :
  Forall in_quota (users Sample.spent) /\ NoDup (map user_id (users Sample.spent)).
Proof.
  destruct (reachable_well_formed Sample.spent) as [_ [Q N]].
  - apply serve_reachable, reach_auth, reach_init.
  - split; assumption.
Defined.

(** ** No more than the daily quota is granted in one day *)

Lemma allowance_same_date u t t' :
  date t = date t' -> allowance u t = allowance u t'.
Proof. unfold allowance, fresh_day. now intros ->. Qed.

Lemma grants_bounded_by_allowance requests current_user day :
  Forall (fun r => date (fst r) = day) requests ->
  forall w u t0,
    healthy w -> stored (sub current_user) w = Some u -> in_quota u ->
    date t0 = day ->
    grants (fst (serve requests current_user w)) <= allowance u t0.
Proof.
  induction 1 as [|[t message] requests D _ IH]; intros w u t0 H S Q D0.
  - unfold grants, allowance, in_quota, DAILY_LIMIT in *.
    cbn [serve fst filter List.length Z.of_nat].
    destruct (fresh_day u t0); lia.
  - cbn [fst] in D. cbn [serve].
    destruct (at_time t (chat_with_agent message current_user) w) as [r w1] eqn:E.
    destruct (chat_at _ _ _ _ _ _ _ H S E) as [Fr [Un Dn]].
    rewrite (allowance_same_date u t0 t) by congruence.
    unfold in_quota, DAILY_LIMIT in Q.
    assert (G : forall u1,
               healthy w1 -> stored (sub current_user) w1 = Some u1 -> in_quota u1 ->
               grants (fst (serve requests current_user w1)) <= allowance u1 t).
    { intros u1 H1 S1 Q1. apply IH; assumption. }
    destruct (serve requests current_user w1) as [rs w2]. cbn [fst] in *.
    unfold grants in *. cbn [filter].
    unfold allowance at 1.
    destruct (fresh_day u t) eqn:F.
    + destruct (Fr eq_refl) as [O [H1 S1]]. rewrite O.
      specialize (G _ H1 S1). unfold allowance in G.
      rewrite fresh_day_after, Z.eqb_refl in G. cbn [negb queries_used_today set_usage] in G.
      cbn [List.length]. rewrite Nat2Z.inj_succ.
      assert (in_quota (set_usage 1 (Some t) u))
        by (unfold in_quota, DAILY_LIMIT; cbn; lia).
      specialize (G ltac:(assumption)). lia.
    + destruct (Z_lt_ge_dec (queries_used_today u) 3) as [L|L].
      * destruct (Un eq_refl L) as [O [H1 S1]]. rewrite O.
        specialize (G _ H1 S1). unfold allowance in G.
        rewrite fresh_day_after, Z.eqb_refl in G.
        cbn [negb queries_used_today set_usage] in G.
        cbn [List.length]. rewrite Nat2Z.inj_succ.
        assert (in_quota (set_usage (queries_used_today u + 1) (Some t) u))
          by (unfold in_quota, DAILY_LIMIT; cbn; lia).
        specialize (G ltac:(assumption)). lia.
      * destruct (Dn eq_refl L) as [O [H1 S1]]. rewrite O.
        specialize (G _ H1 S1). unfold allowance in G. rewrite F in G.
        specialize (G ltac:(unfold in_quota, DAILY_LIMIT; lia)). lia.
Qed.

(** On a healthy directory, for a stored user whose counter is within
    [[0, DAILY_LIMIT]], however many [/chat] requests are served one after
    the other at instants of one UTC day, at most [DAILY_LIMIT] of them are
    granted. *)
Theorem at_most_daily_limit_grants requests current_user day w u :
  healthy w ->
  stored (sub current_user) w = Some u ->
  in_quota u ->
  Forall (fun r => date (fst r) = day) requests ->
  grants (fst (serve requests current_user w)) <= DAILY_LIMIT.
Proof.
  intros H S Q D.
  pose proof (grants_bounded_by_allowance requests current_user day D w u
                (day * 86400) H S Q) as B.
  assert (E : date (day * 86400) = day) by (unfold date; now rewrite Z.div_mul).
  specialize (B E). unfold allowance, in_quota, DAILY_LIMIT in *.
  destruct (fresh_day u (day * 86400)); lia.
Qed.

Lemma at_most_daily_limit_grants_witness :
  grants (fst (serve [(Sample.noon, "a"); (Sample.noon + 1, "b"); (Sample.noon + 2, "c");
                      (Sample.noon + 3, "d"); (Sample.noon + 4, "e")]
                 Sample.session
                 (Sample.world 0 None Sample.noon [])))
  <= 3.
Proof.
  apply (at_most_daily_limit_grants _ Sample.session 19675 _ (Sample.alice 0 None)).
  - reflexivity.
  - reflexivity.
  - unfold in_quota, DAILY_LIMIT. cbn. lia.
  - repeat constructor.
Defined.

(** ** A reset that cannot be written *)

(** When the row is due for a rollover and the write of the reset fails,
    [check_daily_limit] still answers 3: the failure is logged inside
    [reset_daily_queries], the table keeps the stale counter and date. *)
Theorem check_grants_despite_failed_reset uid w u fs :
  stored uid w = Some u ->
  fresh_day u (clock w) = true ->
  faults w = false :: true :: fs ->
  check_daily_limit uid w
  = (Ok 3, emit (LogError "Error resetting daily queries" (Exception "APIError"))
             (set_faults fs w)).
Proof.
  intros S F E. destruct (stored_data _ _ _ S) as [rest D].
  unfold check_daily_limit, try_except, bind.
  rewrite (select_eq_false _ _ _ E), D. cbn [data0 ret]. unfold utcnow.
  cbn [clock set_faults]. unfold fresh_day in F. rewrite F.
  unfold reset_daily_queries, try_except, bind, utcnow, update_eq, bind, external.
  reflexivity.
Qed.

Lemma check_grants_despite_failed_reset_witness :
  fst (check_daily_limit "g-1"
         (Sample.world 3 (Some Sample.noon) Sample.next_day [false; true]))
  = Ok 3
  /\ stored "g-1"
       (snd (check_daily_limit "g-1"
               (Sample.world 3 (Some Sample.noon) Sample.next_day [false; true])))
     = Some (Sample.alice 3 (Some Sample.noon)).
Proof.
  rewrite (check_grants_despite_failed_reset "g-1"
             (Sample.world 3 (Some Sample.noon) Sample.next_day [false; true])
             (Sample.alice 3 (Some Sample.noon)) []);
    [split; reflexivity | reflexivity | reflexivity | reflexivity].
Defined.

(** ** The counter when external calls may fail *)

Lemma update_eq_cases uid q d w :
  (fst (update_eq uid q d w) = Ok tt
   /\ users (snd (update_eq uid q d w)) = update_rows uid q d (users w))
  \/ (fst (update_eq uid q d w) = Raise (Exception "APIError")
      /\ users (snd (update_eq uid q d w)) = users w).
Proof.
  unfold update_eq, bind, external. destruct (faults w) as [|[] fs]; simpl; auto.
Qed.

Lemma stored_same_users uid w w' : users w' = users w -> stored uid w' = stored uid w.
Proof. unfold stored. now intros ->. Qed.

Lemma check_loaded uid w u fs :
  faults w = false :: fs -> stored uid w = Some u ->
  (fresh_day u (clock w) = true -> forall fs', fs <> true :: fs') ->
  check_daily_limit uid w
  = if fresh_day u (clock w)
    then (Ok 3, set_users (update_rows uid 0 (Some (clock w)) (users w))
                  (set_faults (tl fs) w))
    else (if queries_used_today u >=? 3
          then Raise (HTTPException HTTP_429_TOO_MANY_REQUESTS
                        "Daily query limit reached. You can make 3 queries per day.")
          else Ok (3 - queries_used_today u), set_faults fs w).
Proof.
  intros Fw S N. destruct (stored_data _ _ _ S) as [rest D].
  unfold check_daily_limit, try_except, bind.
  rewrite (select_eq_false _ _ _ Fw), D. cbn [data0 ret]. unfold utcnow.
  cbn [clock set_faults]. fold (fresh_day u (clock w)).
  destruct (fresh_day u (clock w)) eqn:F.
  - assert (U : reset_daily_queries uid (set_faults fs w)
                = (Ok tt, set_users (update_rows uid 0 (Some (clock w)) (users w))
                            (set_faults (tl fs) w))).
    { unfold reset_daily_queries, try_except, bind, utcnow, update_eq, bind, external.
      cbn [faults set_faults clock users].
      destruct fs as [|[] fs']; [reflexivity | now contradiction (N eq_refl fs') | reflexivity]. }
    now rewrite U.
  - now destruct (queries_used_today u >=? 3).
Qed.

(** A check whose reset, if any, is persisted keeps the rows within the
    limit and, when it grants, leaves the row it read below the limit. *)
Lemma check_keeps_quota uid w :
  Forall in_quota (users w) -> reset_fails uid w = false ->
  Forall in_quota (users (snd (check_daily_limit uid w)))
  /\ (forall r, fst (check_daily_limit uid w) = Ok r ->
        exists u, stored uid (snd (check_daily_limit uid w)) = Some u
                  /\ queries_used_today u < DAILY_LIMIT).
Proof.
  intros Q R. unfold reset_fails in R.
  destruct (faults w) as [|[|] fs] eqn:Fw.
  - exact (proj2 (check_step uid w Fw Q)).
  - pose proof (check_outcomes uid w) as O.
    assert (E : exists e, fst (check_daily_limit uid w) = Raise e).
    { unfold check_daily_limit, try_except, bind, select_eq, bind, external.
      rewrite Fw. cbn. now eexists. }
    destruct E as [e E]. rewrite E in O. destruct O as [_ U].
    rewrite U, E. split; [exact Q | discriminate].
  - destruct (stored uid w) as [u|] eqn:S.
    + rewrite (check_loaded uid w u fs Fw S).
      2: { intros F fs' ->. rewrite F in R. discriminate. }
      destruct (fresh_day u (clock w)) eqn:F; cbn [fst snd users set_users set_faults].
      * split.
        -- apply update_rows_in_quota; [unfold DAILY_LIMIT; lia | exact Q].
        -- intros r _. exists (set_usage 0 (Some (clock w)) u). split.
           ++ eapply stored_first_update; [exact S | reflexivity].
           ++ unfold DAILY_LIMIT. cbn. lia.
      * split; [exact Q|]. intros r.
        destruct (Z.geb_spec (queries_used_today u) 3) as [G|G]; [discriminate|].
        intros _. exists u. split; [exact S | unfold DAILY_LIMIT; lia].
    + pose proof (check_outcomes uid w) as O.
      destruct (fst (check_daily_limit uid w)) as [r|e] eqn:E.
      * destruct O as [_ [u [S' _]]]. rewrite S in S'. discriminate.
      * destruct O as [_ U]. rewrite U. split; [exact Q | discriminate].
Qed.

Lemma increment_users uid w :
  users (snd (increment_query_count uid w)) = users w
  \/ exists u, stored uid w = Some u
               /\ users (snd (increment_query_count uid w))
                  = update_rows uid (queries_used_today u + 1) (Some (clock w)) (users w).
Proof.
  destruct (increment_query_count uid w) as [res w'] eqn:E. cbn [snd].
  unfold increment_query_count, try_except, bind, data0, ret, raise, utcnow,
    logger_error in E.
  destruct (select_eq_cases uid w) as [R [U C]].
  destruct (select_eq uid w) as [r w1]. cbn [fst snd] in R, U, C.
  destruct R as [-> | ->].
  2: { apply pair_equal_spec in E as [_ <-]. left. exact U. }
  unfold stored.
  destruct (filter (matches uid) (users w)) as [|u rest].
  { apply pair_equal_spec in E as [_ <-]. left. exact U. }
  cbv beta iota in E.
  destruct (update_eq_cases uid (queries_used_today u + 1) (Some (clock w1)) w1)
    as [[E1 E2] | [E1 E2]];
    destruct (update_eq uid (queries_used_today u + 1) (Some (clock w1)) w1)
      as [ru w2]; cbn [fst snd] in E1, E2; subst ru;
    apply pair_equal_spec in E as [_ <-].
  - right. exists u. split; [reflexivity|]. now rewrite E2, U, C.
  - left. cbn [users emit]. now rewrite E2, U.
Qed.

Lemma increment_keeps_quota uid w u :
  Forall in_quota (users w) ->
  stored uid w = Some u -> queries_used_today u < DAILY_LIMIT ->
  Forall in_quota (users (snd (increment_query_count uid w))).
Proof.
  intros Q S L. destruct (increment_users uid w) as [-> | [u' [S' ->]]]; [exact Q|].
  rewrite S in S'. injection S' as <-.
  apply update_rows_in_quota; [|exact Q].
  pose proof (stored_In _ _ _ S) as I.
  rewrite Forall_forall in Q. specialize (Q _ I). unfold in_quota in Q. lia.
Qed.

Lemma run_op_keeps_quota op w :
  Forall in_quota (users w) ->
  reset_fails (op_uid op) (set_clock (op_check_time op) w) = false ->
  Forall in_quota (users (run_op op w)).
Proof.
  intros Q R. destruct op as [t uid | t1 t2 uid]; unfold run_op, at_time;
    cbn [op_uid op_check_time] in R.
  - exact (proj1 (check_keeps_quota uid (set_clock t w) Q R)).
  - destruct (check_keeps_quota uid (set_clock t1 w) Q R) as [Q1 G].
    destruct (check_daily_limit uid (set_clock t1 w)) as [[r|e] w1]; cbn [fst snd] in *;
      [|exact Q1].
    destruct (G r eq_refl) as [u [S L]].
    exact (increment_keeps_quota uid (set_clock t2 w1) u Q1 S L).
Qed.

(** C3 as the code has it.  For a table whose rows all have
    [queries_used_today] in [[0, DAILY_LIMIT]], after any sequence of quota
    operations run one after the other (checks alone, and checks followed
    by one increment when they grant) in which every rollover reset that is
    attempted is persisted, every row still has [queries_used_today] in
    [[0, DAILY_LIMIT]]; any other external call may fail. *)
Theorem quota_within_limit_when_resets_persist ops w :
  Forall in_quota (users w) ->
  resets_persist ops w ->
  Forall in_quota (users (run_ops ops w)).
Proof.
  unfold run_ops. revert w. induction ops as [|op ops IH]; intros w Q P; simpl.
  - exact Q.
  - destruct P as [R P]. apply IH; [|exact P].
    exact (run_op_keeps_quota op w Q R).
Qed.

Lemma quota_within_limit_when_resets_persist_witness :
  Forall in_quota
    (users (run_ops [Spend Sample.noon Sample.noon "g-1";
                     Spend (Sample.noon + 1) (Sample.noon + 2) "g-1";
                     Spend Sample.next_day Sample.next_day "g-1"]
              (Sample.world 2 (Some Sample.noon) Sample.noon
                 [false; false; true; true; false; false; false; true]))).
Proof.
  apply quota_within_limit_when_resets_persist.
  - repeat constructor; unfold in_quota, DAILY_LIMIT; simpl; lia.
  - cbn. repeat split; reflexivity.
Defined.

(** C3 with nothing assumed about the external calls: a row at the limit
    whose rollover reset cannot be written is still granted, and the
    increment that follows stores 4. *)
Lemma quota_exceeded_after_failed_reset :
  ~ quota_invariant_unconditional.
Proof.
  intros P.
  specialize (P [Spend Sample.next_day Sample.next_day "g-1"]
                (Sample.world 3 (Some Sample.noon) Sample.next_day [false; true])).
  assert (Q : Forall in_quota
                (users (Sample.world 3 (Some Sample.noon) Sample.next_day [false; true]))).
  { repeat constructor; unfold in_quota, DAILY_LIMIT; simpl; lia. }
  specialize (P Q). vm_compute in P.
  inversion P as [|? ? _ P1]. inversion P1 as [|? ? [_ B] _].
  apply B. reflexivity.
Qed.

(** ** Get-or-create under schedules of callers *)

(** The two pieces, run back to back under the handler, are
    [get_or_create_user]. *)
Lemma get_or_create_user_split user_info :
  get_or_create_user user_info
  = try_except (data <- goc_lookup user_info ;; goc_complete user_info data) goc_handler.
Proof. reflexivity. Qed.

(** A caller that advances twice without anyone in between has run
    [get_or_create_user]. *)
Lemma advance_twice user_info w :
  advance (fst (advance (Arrived user_info) w)) (snd (advance (Arrived user_info) w))
  = (Answered (fst (get_or_create_user user_info w)),
     snd (get_or_create_user user_info w)).
Proof.
  rewrite get_or_create_user_split. unfold advance, try_except, bind.
  destruct (goc_lookup user_info w) as [[data|e] w1]; cbn [fst snd].
  - now destruct (goc_complete user_info data w1) as [[u|e] w2].
  - now destruct (goc_handler e w1).
Qed.








Section Serial.

Variable user_info : UserInfo.
Variable n : nat.
Variable w0 : World.

Let uid := ui_user_id user_info.
Let new_user :=
  mkUser (ui_user_id user_info) (ui_email user_info) (ui_name user_info) 0 None (clock w0).




End Serial.




(** The same schedule when the directory refuses the second insert: one row
    is stored and the second caller is answered with the 500. *)
Remark interleaved_caller_refused :
  let final :=
    run_schedule [0; 1; 0; 1]%nat
      (repeat (Arrived (mkUserInfo "g-7" "eve@example.com" "Eve" "")) 2,
       Sample.world 1 (Some Sample.noon) Sample.noon [false; false; false; true]) in
  fst final
  = [Answered (Ok (mkUser "g-7" "eve@example.com" "Eve" 0 None Sample.noon));
     Answered (Raise (HTTPException 500 "Database error"))]
  /\ filter (matches "g-7") (users (snd final))
     = [mkUser "g-7" "eve@example.com" "Eve" 0 None Sample.noon].
Proof. vm_compute. split; reflexivity. Qed.
